(** * Expense tracker ([app.py]): aggregation, export and request handlers

    A shallow embedding of the Flask application.  Python values are
    modelled as follows.
    - [str]: a Rocq [string] holding the UTF-8 encoding of the text
      (byte-wise order on UTF-8 is code-point order, so [sorted] and [==]
      on strings are those of [String]).
    - [float]: a primitive binary64 float, with the kernel's IEEE 754
      round-to-nearest-even arithmetic, which is what CPython and the
      SQLite [REAL] column use.
    - [dict]: an association list in insertion order, as [dict] keeps it.
    - the [expense] table: the list of its rows in row-id order, which is
      what an unordered [Expense.query.all()] scan returns.
    - library calls whose result the handlers only pass on ([float],
      [datetime.strptime], [str] of a float, the matplotlib rendering) are
      variables of the section [App]; those that can raise return a
      [result] or an [option].
    - an exception that no handler catches ends the request: the response
      is [raised e], and what the handler had not committed is lost. *)

From Stdlib Require Import ZArith List String Ascii Bool Floats.
From Stdlib Require Import Permutation Sorted Lia.
Import ListNotations.

Set Warnings "-inexact-float".

Local Open Scope N_scope.
Local Open Scope string_scope.
Local Open Scope list_scope.

(** ** [datetime] *)

Record datetime := mk_datetime {
  year : N;
  month : N;
  day : N;
  hour : N;
  minute : N;
  second : N;
  microsecond : N
}.

Definition is_leap (y : N) : bool :=
  ((y mod 4 =? 0)%N && negb (y mod 100 =? 0)%N) || (y mod 400 =? 0)%N.

Definition days_in_month (y m : N) : N :=
  match m with
  | 2 => if is_leap y then 29 else 28
  | 4 | 6 | 9 | 11 => 30
  | _ => 31
  end.

(** The range checks of the [datetime] constructor ([MINYEAR = 1],
    [MAXYEAR = 9999]): every [datetime] object satisfies them. *)
Definition datetime_ok (d : datetime) : bool :=
  (1 <=? year d)%N && (year d <=? 9999)%N &&
  (1 <=? month d)%N && (month d <=? 12)%N &&
  (1 <=? day d)%N && (day d <=? days_in_month (year d) (month d))%N &&
  (hour d <? 24)%N && (minute d <? 60)%N && (second d <? 60)%N &&
  (microsecond d <? 1000000)%N.

Definition digit (n : N) : ascii := ascii_of_N (48 + n mod 10).

(** [%02d] and [%04d] on numbers that fit the width. *)
Definition dec2 (n : N) : string :=
  String (digit (n / 10)) (String (digit n) "").

Definition dec4 (n : N) : string :=
  String (digit (n / 1000)) (String (digit (n / 100)) (dec2 n)).

(** [%Y] of the C library that CPython calls, here glibc's: the year in
    decimal without padding, so that a year below 1000 has fewer than four
    digits.  (C libraries that pad to four digits agree from year 1000
    on.)  Years are between 1 and 9999. *)
Definition dec_year (y : N) : string :=
  if (y <? 10)%N then String (digit y) ""
  else if (y <? 100)%N then dec2 y
  else if (y <? 1000)%N then String (digit (y / 100)) (dec2 y)
  else dec4 y.

(** [d.strftime(fmt)] for the directives the application uses: [%Y] as
    above, [%m] and [%d] zero-padded to two digits. *)
Fixpoint strftime (d : datetime) (fmt : string) : string :=
  match fmt with
  | "" => ""
  | String "%" (String c rest) =>
      match c with
      | "Y"%char => dec_year (year d) ++ strftime d rest
      | "m"%char => dec2 (month d) ++ strftime d rest
      | "d"%char => dec2 (day d) ++ strftime d rest
      | _ => String "%" (String c (strftime d rest))
      end
  | String c rest => String c (strftime d rest)
  end.

(** Comparison of two [datetime]s, field by field. *)
Definition datetime_key (d : datetime) : list N :=
  [year d; month d; day d; hour d; minute d; second d; microsecond d].

Fixpoint lex_leb (a b : list N) : bool :=
  match a, b with
  | [], _ => true
  | _ :: _, [] => false
  | x :: a', y :: b' =>
      if (x <? y)%N then true
      else if (y <? x)%N then false
      else lex_leb a' b'
  end.

Definition datetime_leb (a b : datetime) : bool :=
  lex_leb (datetime_key a) (datetime_key b).

(** ** The [Expense] model *)

Record Expense := mk_Expense {
  id : Z;
  amount : float;
  category : string;
  date : datetime;
  description : option string
}.

(** ** [dict] *)

Definition dict (V : Type) : Type := list (string * V).

Section Dict.
Context {V : Type}.

Fixpoint dict_get (d : dict V) (k : string) : option V :=
  match d with
  | [] => None
  | (k', v) :: r => if k' =? k then Some v else dict_get r k
  end.

(** [d[k] = v]: an existing key keeps its position, a new one goes last. *)
Fixpoint dict_set (d : dict V) (k : string) (v : V) : dict V :=
  match d with
  | [] => [(k, v)]
  | (k', v') :: r =>
      if k' =? k then (k, v) :: r else (k', v') :: dict_set r k v
  end.

Definition keys (d : dict V) : list string := map fst d.
Definition values (d : dict V) : list V := map snd d.

(** The grouping idiom of [dashboard]:
    [if k in d: d[k] += a  else: d[k] = a]. *)
Definition accumulate (add : V -> V -> V) (d : dict V) (k : string) (a : V)
  : dict V :=
  match dict_get d k with
  | Some v => dict_set d k (add v a)
  | None => dict_set d k a
  end.

(** Running the idiom from [d] over a sequence of (key, amount) pairs. *)
Definition accumulate_all (add : V -> V -> V) (d : dict V)
  (kvs : list (string * V)) : dict V :=
  fold_left (fun d kv => accumulate add d (fst kv) (snd kv)) kvs d.

Definition aggregate (add : V -> V -> V) (kvs : list (string * V)) : dict V :=
  accumulate_all add [] kvs.

(** [x1 + x2 + ... + xn], left to right; nothing for no operand. *)
Definition sum_left (add : V -> V -> V) (l : list V) : option V :=
  match l with
  | [] => None
  | x :: r => Some (fold_left add r x)
  end.
End Dict.

(** ** Sorting: [sorted(...)] and [ORDER BY] *)

Section Sort.
Context {A : Type} (leb : A -> A -> bool).

Fixpoint insert_sorted (x : A) (l : list A) : list A :=
  match l with
  | [] => [x]
  | y :: r => if leb x y then x :: y :: r else y :: insert_sorted x r
  end.

(** A stable sort; on a total order every stable sort returns this list. *)
Definition sort_by (l : list A) : list A :=
  fold_right insert_sorted [] l.
End Sort.

(** [sorted(xs)] on a list of [str]. *)
Definition sorted (l : list string) : list string := sort_by String.leb l.

(** ** The dashboard's aggregation loop *)

Definition dashboard_step (st : dict float * dict float) (expense : Expense)
  : dict float * dict float :=
  let '(categories, monthly_data) := st in
  (accumulate PrimFloat.add categories (category expense) (amount expense),
   let month_key := strftime (date expense) "%Y-%m" in
   accumulate PrimFloat.add monthly_data month_key (amount expense)).

Definition dashboard_loop (expenses : list Expense) : dict float * dict float :=
  fold_left dashboard_step expenses ([], []).

Definition categories (expenses : list Expense) : dict float :=
  fst (dashboard_loop expenses).

Definition monthly_data (expenses : list Expense) : dict float :=
  snd (dashboard_loop expenses).

(** [sorted_months = sorted(monthly_data.keys())] *)
Definition sorted_months (monthly_data : dict float) : list string :=
  sorted (keys monthly_data).

(** [[f(x) for x in xs]] where [f] may raise. *)
Fixpoint comprehension {A B : Type} (f : A -> option B) (xs : list A)
  : option (list B) :=
  match xs with
  | [] => Some []
  | x :: r =>
      match f x, comprehension f r with
      | Some y, Some ys => Some (y :: ys)
      | _, _ => None
      end
  end.

(** [[monthly_data[month] for month in sorted_months]]; [None] is [KeyError]. *)
Definition monthly_values (expenses : list Expense) : option (list float) :=
  comprehension (dict_get (monthly_data expenses))
    (sorted_months (monthly_data expenses)).

(** [sum(xs)] on floats: the running total from [0]. *)
Definition sum_floats (l : list float) : float :=
  fold_left PrimFloat.add l 0%float.

(** ** Exact values of floats

    Every finite binary64 number is an integer multiple of [2^-1074]; [units]
    is that integer, and [None] for infinities and NaN. *)
Definition units (f : float) : option Z :=
  match Prim2SF f with
  | S754_zero _ => Some 0%Z
  | S754_finite s m e =>
      Some ((if s then -1 else 1) * Z.shiftl (Z.pos m) (e + 1074))%Z
  | _ => None
  end.

Definition finite (f : float) : bool :=
  match units f with Some _ => true | None => false end.

Definition value (f : float) : Z :=
  match units f with Some z => z | None => 0%Z end.

(** The addition [x + y] did not round (and did not overflow). *)
Definition exact_add (x y : float) : bool :=
  finite x && finite y && finite (x + y) &&
  (value (x + y) =? value x + value y)%Z.

(** ** Exceptions *)

Inductive exn :=
| ValueError
| KeyError
| BadRequestKeyError
| IntegrityError
| OverflowError.

(** Computations that may raise. *)
Definition result (A : Type) : Type := exn + A.

Definition bind {A B : Type} (m : result A) (k : A -> result B) : result B :=
  match m with
  | inl e => inl e
  | inr x => k x
  end.

Notation "x <- m ;; k" := (bind m (fun x => k))
  (at level 61, m at next level, right associativity).

Definition or_raise {A : Type} (e : exn) (o : option A) : result A :=
  match o with
  | Some x => inr x
  | None => inl e
  end.

(** ** The [expense] table and its queries *)

Definition table := list Expense.

(** [Expense.query.all()] *)
Definition query_all (t : table) : list Expense := t.

(** [Expense.query.count()] *)
Definition query_count (t : table) : nat := List.length t.

(** [Expense.query.order_by(Expense.date.desc())]: newest first; rows with
    equal dates stay in table order. *)
Definition order_by_date_desc (t : table) : list Expense :=
  sort_by (fun a b => datetime_leb (date b) (date a)) t.

(** [.limit(n)] *)
Definition limit (n : nat) (l : list Expense) : list Expense := firstn n l.

(** [db.func.sum(Expense.amount)] followed by [.scalar()].  SQL [SUM] is
    [NULL] over no rows.  Over a [REAL] column SQLite adds the values up in
    a double, row after row from [0.0], and hands a NaN total back as
    [NULL].  (From version 3.44 on it also compensates the rounding of the
    additions, which can change the last digits of a total that was not
    exact; a total whose additions are all exact is the same.) *)
Definition query_sum_amount (t : table) : option float :=
  match t with
  | [] => None
  | _ :: _ =>
      let total := sum_floats (map amount t) in
      if is_nan total then None else Some total
  end.

(** The row whose primary key is [i], if there is one.  (Stored keys are
    64-bit integers; what happens when [i] is not is in [get_or_404].) *)
Definition query_get (i : Z) (t : table) : option Expense :=
  find (fun e => (id e =? i)%Z) t.

(** The key the engine gives a new row: one more than the largest in use
    (as long as that fits in 64 bits). *)
Definition next_id (t : table) : Z :=
  (fold_left Z.max (map id t) 0 + 1)%Z.

(** [db.session.add(e); db.session.commit()] for a row built without [id].
    SQLite stores a NaN as [NULL], which the [NOT NULL] amount column
    refuses: the commit raises and no row is written. *)
Definition session_add (mk : Z -> Expense) (t : table) : result table :=
  let e := mk (next_id t) in
  if is_nan (amount e) then inl IntegrityError else inr (t ++ [e]).

(** The integers SQLite can hold and the driver can bind: 64 bits, signed. *)
Definition int64 (i : Z) : bool :=
  (- 9223372036854775808 <=? i)%Z && (i <=? 9223372036854775807)%Z.

(** [db.session.delete(e); db.session.commit()]:
    [DELETE FROM expense WHERE id = ?]. *)
Definition session_delete (e : Expense) (t : table) : table :=
  filter (fun r => negb (id r =? id e)%Z) t.

(** ** Python numbers as the summary page receives them *)

Inductive pynum :=
| PyInt (z : Z)
| PyFloat (f : float).

(** [x or 0] for [x] a float or [None]: [None] and both zeros are falsy. *)
Definition or_0 (x : option float) : pynum :=
  match x with
  | None => PyInt 0
  | Some f => if is_zero f then PyInt 0 else PyFloat f
  end.

(** ** Requests, responses and exceptions *)

Inductive http_method := GET | POST.

Record request := mk_request {
  method : http_method;
  form : list (string * string)
}.

Inductive page :=
| index_html (total_expenses : pynum) (expenses_count : nat)
    (recent_expenses : list Expense)
| add_expense_html
| dashboard_html (category_chart monthly_chart : option string)
    (categories : dict float)
| expenses_html (expenses : list Expense).

(** What a handler ends with.  [raised e] is an exception no handler
    catches: the framework answers it with its error page (status 500; 400
    for [BadRequestKeyError]). *)
Inductive response :=
| render_template (p : page)
| redirect (endpoint : string)
| send_file (data : string) (download_name mimetype : string)
| abort (code : N)
| raised (e : exn).

(** What a handler can change: the table and the flashed messages. *)
Record world := mk_world {
  expenses_table : table;
  flashes : list (string * string)
}.

Definition flash (message kind : string) (w : world) : world :=
  mk_world (expenses_table w) (flashes w ++ [(message, kind)]).

Definition with_table (f : table -> table) (w : world) : world :=
  mk_world (f (expenses_table w)) (flashes w).

(** [Expense.query.get_or_404(i)]: the row, or the response that ends the
    request.  The driver refuses to bind an integer outside 64 bits (an
    uncaught [OverflowError]); no stored key lies outside that range, so the
    refusal is met exactly where the lookup finds no row. *)
Definition get_or_404 (i : Z) (t : table) : response + Expense :=
  match query_get i t with
  | Some e => inr e
  | None => inl (if int64 i then abort 404 else raised OverflowError)
  end.

(** [request.form[name]] *)
Fixpoint form_lookup (f : list (string * string)) (name : string)
  : option string :=
  match f with
  | [] => None
  | (k, v) :: r => if k =? name then Some v else form_lookup r name
  end.

Definition form_get (req : request) (name : string) : result string :=
  or_raise BadRequestKeyError (form_lookup (form req) name).

(** ** CSV writing ([csv.writer] with the default dialect) *)

Inductive cell :=
| CStr (s : string)
| CFloat (f : float)
| CNone.

Definition CR : ascii := ascii_of_N 13.
Definition LF : ascii := ascii_of_N 10.
Definition DQUOTE : ascii := ascii_of_N 34.
Definition COMMA : ascii := ascii_of_N 44.

Definition special (c : ascii) : bool :=
  Ascii.eqb c COMMA || Ascii.eqb c DQUOTE || Ascii.eqb c CR || Ascii.eqb c LF.

Fixpoint has_special (s : string) : bool :=
  match s with
  | "" => false
  | String c r => special c || has_special r
  end.

Fixpoint double_quotes (s : string) : string :=
  match s with
  | "" => ""
  | String c r =>
      if Ascii.eqb c DQUOTE then String c (String c (double_quotes r))
      else String c (double_quotes r)
  end.

(** [QUOTE_MINIMAL]: a field is quoted when it holds the delimiter, the
    quote character or a line break. *)
Definition csv_field (s : string) : string :=
  if has_special s
  then String DQUOTE (double_quotes s ++ String DQUOTE "")
  else s.

Fixpoint join (sep : string) (l : list string) : string :=
  match l with
  | [] => ""
  | [x] => x
  | x :: r => x ++ sep ++ join sep r
  end.

Definition CRLF : string := String CR (String LF "").

Definition header : list cell :=
  [CStr "Date"; CStr "Category"; CStr "Description"; CStr "Amount (₹)"].

Section App.
(** Library functions the handlers call.  [None] stands for the
    [ValueError] that [float] and [strptime] raise. *)
Variable float_of_str : string -> option float.
Variable strptime : string -> string -> option datetime.
(** [str(x)] on a float, as [csv.writer] writes numbers. *)
Variable float_str : float -> string.
(** The matplotlib figure, saved as PNG and base64-encoded; matplotlib
    raises on data it cannot draw (a negative or non-finite pie wedge, for
    one). *)
Variable pie_png : dict float -> result string.
Variable line_png : list string -> list float -> result string.

Definition cell_text (c : cell) : string :=
  match c with
  | CStr s => s
  | CFloat f => float_str f
  | CNone => ""
  end.

(** [writer.writerow(row)] on the [StringIO] buffer [output]. *)
Definition writerow (output : string) (row : list cell) : string :=
  output ++ join "," (map (fun c => csv_field (cell_text c)) row) ++ CRLF.

Definition index (w : world) : response * world :=
  let total_expenses := or_0 (query_sum_amount (expenses_table w)) in
  let expenses_count := query_count (expenses_table w) in
  let recent_expenses := limit 5 (order_by_date_desc (expenses_table w)) in
  (render_template (index_html total_expenses expenses_count recent_expenses),
   w).

(** The body of the [POST] branch up to the construction of the row. *)
Definition parse_expense (req : request) : result (Z -> Expense) :=
  amount <- (s <- form_get req "amount" ;;
             or_raise ValueError (float_of_str s)) ;;
  category <- form_get req "category" ;;
  date <- (s <- form_get req "date" ;;
           or_raise ValueError (strptime s "%Y-%m-%d")) ;;
  description <- form_get req "description" ;;
  inr (fun i => mk_Expense i amount category date (Some description)).

Definition add_expense (req : request) (w : world) : response * world :=
  match method req with
  | POST =>
      match
        new_expense <- parse_expense req ;;
        session_add new_expense (expenses_table w)
      with
      | inl e => (raised e, w)
      | inr t =>
          (redirect "index",
           flash "Expense added successfully!" "success"
             (mk_world t (flashes w)))
      end
  | GET => (render_template add_expense_html, w)
  end.

Definition generate_pie_chart (categories : dict float)
  : result (option string) :=
  match categories with
  | [] => inr None
  | _ :: _ => chart_url <- pie_png categories ;; inr (Some chart_url)
  end.

Definition generate_line_chart (months : list string) (values : list float)
  : result (option string) :=
  match months with
  | [] => inr None
  | _ :: _ => chart_url <- line_png months values ;; inr (Some chart_url)
  end.

Definition dashboard (w : world) : response * world :=
  let expenses := query_all (expenses_table w) in
  match
    monthly_values <- or_raise KeyError (monthly_values expenses) ;;
    category_chart <- generate_pie_chart (categories expenses) ;;
    monthly_chart <-
      generate_line_chart (sorted_months (monthly_data expenses))
        monthly_values ;;
    inr (dashboard_html category_chart monthly_chart (categories expenses))
  with
  | inl e => (raised e, w)
  | inr p => (render_template p, w)
  end.

Definition view_expenses (w : world) : response * world :=
  let expenses := order_by_date_desc (expenses_table w) in
  (render_template (expenses_html expenses), w).

Definition delete_expense (i : Z) (w : world) : response * world :=
  match get_or_404 i (expenses_table w) with
  | inl r => (r, w)
  | inr expense =>
      (redirect "view_expenses",
       flash "Expense deleted successfully!" "success"
         (with_table (session_delete expense) w))
  end.

Definition export_row (expense : Expense) : list cell :=
  [CStr (strftime (date expense) "%Y-%m-%d");
   CStr (category expense);
   match description expense with Some s => CStr s | None => CNone end;
   CFloat (amount expense)].

(** The rows handed to the writer, header first. *)
Definition export_rows (t : table) : list (list cell) :=
  header :: map export_row (query_all t).

Definition export_csv (w : world) : response * world :=
  let output := fold_left writerow (export_rows (expenses_table w)) "" in
  (send_file output "expenses.csv" "text/csv", w).
End App.

Definition sample_date (y m d : N) : datetime := mk_datetime y m d 0 0 0 0.

(** ** Notions the properties are stated with *)

Definition mem (k : string) (l : list string) : bool :=
  existsb (String.eqb k) l.

(** The distinct elements of [l], each at the place of its first occurrence. *)
Fixpoint first_occurrences (l : list string) : list string :=
  match l with
  | [] => []
  | x :: r => x :: filter (fun y => negb (y =? x)) (first_occurrences r)
  end.

(** The (key, amount) pairs the two halves of the loop body work on. *)
Definition category_pair (e : Expense) : string * float :=
  (category e, amount e).

Definition month_pair (e : Expense) : string * float :=
  (strftime (date e) "%Y-%m", amount e).

(** The amounts filed under key [k], in input order. *)
Definition amounts_of {V : Type} (k : string) (kvs : list (string * V)) : list V :=
  map snd (filter (fun kv => fst kv =? k) kvs).

(** Every [+=] of a grouping run from [d] over [kvs] is exact. *)
Fixpoint exact_accumulation (d : dict float) (kvs : list (string * float))
  : bool :=
  match kvs with
  | [] => true
  | (k, a) :: r =>
      match dict_get d k with
      | Some v => exact_add v a
      | None => finite a
      end && exact_accumulation (accumulate PrimFloat.add d k a) r
  end.

(** Every addition of the running total [acc + x1 + ... + xn] is exact. *)
Fixpoint exact_sum (acc : float) (l : list float) : bool :=
  match l with
  | [] => true
  | x :: r => exact_add acc x && exact_sum (acc + x)%float r
  end.

(** No floating-point addition rounds: neither in the two groupings of the
    dashboard loop nor in the three totals taken afterwards. *)
Definition no_rounding (expenses : list Expense) : bool :=
  exact_accumulation [] (map category_pair expenses) &&
  exact_accumulation [] (map month_pair expenses) &&
  exact_sum 0%float (values (categories expenses)) &&
  exact_sum 0%float (values (monthly_data expenses)) &&
  exact_sum 0%float (map amount expenses).

Definition Zsum (l : list Z) : Z := fold_right Z.add 0%Z l.

(** Applying [f] to every value of a dictionary. *)
Definition dict_map {V W : Type} (f : V -> W) (d : dict V) : dict W :=
  map (fun kv => (fst kv, f (snd kv))) d.

Definition all_finite (d : dict float) : bool := forallb finite (values d).

(** Reading back zero-padded decimal fields. *)
Definition is_digit (c : ascii) : bool :=
  (48 <=? N_of_ascii c)%N && (N_of_ascii c <=? 57)%N.

Definition digit_value (c : ascii) : N := N_of_ascii c - 48.

Definition number2 (a b : ascii) : N := 10 * digit_value a + digit_value b.

Definition number4 (a b c d : ascii) : N :=
  1000 * digit_value a + 100 * digit_value b + number2 c d.

(** A month key [YYYY-MM]: four digits, a dash, and a month from 01 to 12. *)
Definition parse_month_key (k : string) : option (N * N) :=
  match k with
  | String a (String b (String c (String d (String s (String e (String f "")))))) =>
      if forallb is_digit [a; b; c; d; e; f] && Ascii.eqb s "-" &&
         (1 <=? number2 e f)%N && (number2 e f <=? 12)%N
      then Some (number4 a b c d, number2 e f)
      else None
  | _ => None
  end.

Definition is_month_key (k : string) : bool :=
  match parse_month_key k with Some _ => true | None => false end.

(** Months counted from year 0: the chronological position of a key. *)
Definition month_index (k : string) : N :=
  match parse_month_key k with
  | Some (y, m) => 12 * y + m
  | None => 0
  end.

(** A well-formed [datetime] whose year has four digits. *)
Definition four_digit_year (d : datetime) : bool :=
  datetime_ok d && (1000 <=? year d)%N.

(** A date [YYYY-MM-DD]: digits and dashes at their places. *)
Definition parse_iso_date (s : string) : option (N * N * N) :=
  match s with
  | String a (String b (String c (String d (String s1 (String e (String f
      (String s2 (String g (String h ""))))))))) =>
      if forallb is_digit [a; b; c; d; e; f; g; h] &&
         Ascii.eqb s1 "-" && Ascii.eqb s2 "-"
      then Some (number4 a b c d, number2 e f, number2 g h)
      else None
  | _ => None
  end.

(** Newest first, as [ORDER BY date DESC] leaves a list. *)
Fixpoint newest_first (l : list datetime) : bool :=
  match l with
  | [] => true
  | d :: r =>
      match r with
      | [] => true
      | d' :: _ => datetime_leb d' d && newest_first r
      end
  end.

(** ** Sample data and stand-ins for the library parsers *)

Definition sample_expenses : list Expense :=
  [ mk_Expense 1 100 "Food" (sample_date 2024 1 15) (Some "groceries");
    mk_Expense 2 50 "Food" (sample_date 2024 2 1) (Some "lunch");
    mk_Expense 3 30 "Transport" (sample_date 2024 1 20) (Some "bus") ].

(** The same records after one dated in March: the months are first met
    out of order. *)
Definition march_first : list Expense :=
  mk_Expense 4 20 "Rent" (sample_date 2024 3 1) None :: sample_expenses.

Definition rounding_sample : list Expense :=
  [ mk_Expense 1 0.1 "Food" (sample_date 2024 1 15) (Some "tea");
    mk_Expense 2 0.2 "Food" (sample_date 2024 2 1) (Some "bun");
    mk_Expense 3 0.3 "Transport" (sample_date 2024 2 20) (Some "bus") ].

Definition one_month_sample : list Expense :=
  [ mk_Expense 1 0.1 "Food" (sample_date 2024 1 15) (Some "tea");
    mk_Expense 2 0.2 "Food" (sample_date 2024 1 16) (Some "bun");
    mk_Expense 3 0.3 "Food" (sample_date 2024 1 17) (Some "jam") ].

(** A strict reader of [YYYY-MM-DD], standing in for [datetime.strptime]. *)
Definition strict_strptime (s fmt : string) : option datetime :=
  if fmt =? "%Y-%m-%d" then
    match parse_iso_date s with
    | Some (y, m, d) =>
        if datetime_ok (sample_date y m d) then Some (sample_date y m d)
        else None
    | None => None
    end
  else None.

Fixpoint digits_value (acc : Z) (s : string) : option Z :=
  match s with
  | "" => Some acc
  | String c r =>
      if is_digit c
      then digits_value (10 * acc + Z.of_N (digit_value c))%Z r
      else None
  end.

(** A reader of unsigned integers, standing in for [float]. *)
Definition integer_float (s : string) : option float :=
  match s with
  | "" => None
  | String _ _ =>
      match digits_value 0 s with
      | Some z => Some (SF2Prim (binary_normalize prec emax z 0 false))
      | None => None
      end
  end.

(** The text of a file from its lines. *)
Definition concat_strings (l : list string) : string :=
  fold_right String.append "" l.

(** A record dated in the year 999. *)
Definition short_year_expense : Expense :=
  mk_Expense 1 100 "Food" (sample_date 999 12 31) (Some "old").

(** The rows of the export below the header. *)
Definition data_rows (t : table) : list (list cell) := tl (export_rows t).

(** The total the summary page is rendered with. *)
Definition total_expenses_of (r : response) : option pynum :=
  match r with
  | render_template (index_html total _ _) => Some total
  | _ => None
  end.

(** Two add requests, the older date entered first, and the world they
    lead to from an empty table. *)
Definition add_request (a c d s : string) : request :=
  mk_request POST
    [("amount", a); ("category", c); ("date", d); ("description", s)].

Definition after_two_adds : world :=
  snd (add_expense integer_float strict_strptime
         (add_request "50" "Food" "2024-02-01" "lunch")
         (snd (add_expense integer_float strict_strptime
                 (add_request "100" "Food" "2024-01-15" "groceries")
                 (mk_world [] [])))).

(** An add request that leaves the description field out. *)
Definition request_without_description : request :=
  mk_request POST [("amount", "12"); ("category", "Food"); ("date", "2024-03-01")].

(** The names [add_expense] reads from the form, in the order it reads
    them. *)
Definition add_fields : list string :=
  ["amount"; "category"; "date"; "description"].

(** ** The library parsers, on ASCII text

    [float(s)] and [datetime.strptime(s, "%Y-%m-%d")] as CPython defines
    them, for text made of ASCII characters.  (Both also read the decimal
    digits of other scripts; such text is outside this model.)  [None] is
    [ValueError]. *)

Definition is_space (c : ascii) : bool :=
  let n := N_of_ascii c in
  ((9 <=? n)%N && (n <=? 13)%N) || ((28 <=? n)%N && (n <=? 32)%N).

Fixpoint lstrip (l : list ascii) : list ascii :=
  match l with
  | [] => []
  | c :: r => if is_space c then lstrip r else l
  end.

Definition strip (l : list ascii) : list ascii :=
  rev (lstrip (rev (lstrip l))).

(** Underscores may stand between two digits only; they are dropped. *)
Fixpoint drop_underscores (prev : option ascii) (l : list ascii)
  : option (list ascii) :=
  match l with
  | [] =>
      match prev with
      | Some p => if Ascii.eqb p "_" then None else Some []
      | None => Some []
      end
  | c :: r =>
      if Ascii.eqb c "_" then
        match prev with
        | Some p => if is_digit p then drop_underscores (Some c) r else None
        | None => None
        end
      else
        match prev with
        | Some p =>
            if Ascii.eqb p "_" && negb (is_digit c) then None
            else option_map (cons c) (drop_underscores (Some c) r)
        | None => option_map (cons c) (drop_underscores (Some c) r)
        end
  end.

Definition to_lower (c : ascii) : ascii :=
  let n := N_of_ascii c in
  if (65 <=? n)%N && (n <=? 90)%N then ascii_of_N (n + 32) else c.

Definition parse_sign (l : list ascii) : bool * list ascii :=
  match l with
  | "-"%char :: r => (true, r)
  | "+"%char :: r => (false, r)
  | _ => (false, l)
  end.

(** The leading digits of [l] and what follows them. *)
Fixpoint take_digits (l : list ascii) : list ascii * list ascii :=
  match l with
  | [] => ([], [])
  | c :: r =>
      if is_digit c
      then let (ds, rest) := take_digits r in (c :: ds, rest)
      else ([], l)
  end.

Definition digits_to_Z (ds : list ascii) : Z :=
  fold_left (fun a c => 10 * a + Z.of_N (digit_value c))%Z ds 0%Z.

(** digits [. digits] [e [sign] digits] with at least one digit before the
    exponent, and nothing after: the mantissa (all the digits read as one
    integer) and the power of ten it is scaled by. *)
Definition parse_decimal (l : list ascii) : option (Z * Z) :=
  let (ip, r1) := take_digits l in
  let (fp, r2) :=
    match r1 with
    | "."%char :: r => take_digits r
    | _ => ([], r1)
    end in
  match ip ++ fp with
  | [] => None
  | _ :: _ =>
      let m := digits_to_Z (ip ++ fp) in
      let e0 := (- Z.of_nat (List.length fp))%Z in
      match r2 with
      | [] => Some (m, e0)
      | c :: r3 =>
          if Ascii.eqb (to_lower c) "e" then
            let (neg, r4) := parse_sign r3 in
            let (ed, r5) := take_digits r4 in
            match ed, r5 with
            | _ :: _, [] =>
                let x := digits_to_Z ed in
                Some (m, (e0 + if neg then - x else x)%Z)
            | _, _ => None
            end
          else None
      end
  end.

(** The double nearest to [m * 2^e], ties to even; infinite when too large. *)
Definition round_to_float (m e : Z) : float :=
  SF2Prim (binary_normalize prec emax m e false).

(** The double nearest to [m * 10^e10] for [m >= 0].  A negative power of
    ten is divided out with seventy bits to spare and a sticky last bit,
    which rounds as the exact quotient does. *)
Definition decimal_value (m e10 : Z) : float :=
  if (m =? 0)%Z then 0%float
  else if (0 <=? e10)%Z then round_to_float (m * 10 ^ e10) 0
  else
    let d := (10 ^ (- e10))%Z in
    let k := Z.max 0 (Z.log2 d - Z.log2 m + 70) in
    let n := (m * 2 ^ k)%Z in
    let sticky := if (n mod d =? 0)%Z then 0%Z else 1%Z in
    round_to_float (2 * (n / d) + sticky) (- k - 1).

Definition py_float (s : string) : option float :=
  match drop_underscores None (strip (list_ascii_of_string s)) with
  | None => None
  | Some l =>
      let (neg, r) := parse_sign l in
      let word := string_of_list_ascii (map to_lower r) in
      if (word =? "inf") || (word =? "infinity") then
        Some (if neg then neg_infinity else infinity)
      else if word =? "nan" then Some nan
      else
        match parse_decimal r with
        | Some (m, e10) =>
            Some (if neg then - decimal_value m e10 else decimal_value m e10)%float
        | None => None
        end
  end.

(** The month after the year's dash, up to and including the next dash:
    [1[0-2]|0[1-9]|[1-9]]. *)
Definition parse_month (l : list ascii) : option (N * list ascii) :=
  match l with
  | a :: b :: "-"%char :: r =>
      if is_digit a && is_digit b &&
         (1 <=? number2 a b)%N && (number2 a b <=? 12)%N
      then Some (number2 a b, r) else None
  | a :: "-"%char :: r =>
      if is_digit a && (1 <=? digit_value a)%N
      then Some (digit_value a, r) else None
  | _ => None
  end.

(** The day, which must end the text: [3[01]|[12]\d|0[1-9]|[1-9]| [1-9]]. *)
Definition parse_day (l : list ascii) : option N :=
  match l with
  | [a; b] =>
      if is_digit a && is_digit b &&
         (1 <=? number2 a b)%N && (number2 a b <=? 31)%N
      then Some (number2 a b)
      else if Ascii.eqb a " " && is_digit b && (1 <=? digit_value b)%N
      then Some (digit_value b)
      else None
  | [a] =>
      if is_digit a && (1 <=? digit_value a)%N
      then Some (digit_value a) else None
  | _ => None
  end.

(** [datetime.strptime(s, fmt)] for the one format the application uses. *)
Definition py_strptime (s fmt : string) : option datetime :=
  if fmt =? "%Y-%m-%d" then
    match list_ascii_of_string s with
    | a :: b :: c :: d :: "-"%char :: r =>
        if forallb is_digit [a; b; c; d] then
          match parse_month r with
          | Some (m, r') =>
              match parse_day r' with
              | Some dd =>
                  let dt := mk_datetime (number4 a b c d) m dd 0 0 0 0 in
                  if datetime_ok dt then Some dt else None
              | None => None
              end
          | None => None
          end
        else None
    | _ => None
    end
  else None.


(** Two adds with amounts [inf] and [-inf], from an empty table. *)
Definition after_infinite_adds : world :=
  snd (add_expense py_float py_strptime
         (add_request "-inf" "Food" "2024-02-01" "refund")
         (snd (add_expense py_float py_strptime
                 (add_request "inf" "Food" "2024-01-15" "treat")
                 (mk_world [] [])))).

(** * Properties *)

(** ** Lists *)

Lemma filter_andb {A : Type} (p q : A -> bool) (l : list A) :
  filter p (filter q l) = filter (fun x => q x && p x) l.
Proof.
  induction l as [|x r IH]; simpl; auto.
  destruct (q x); simpl; rewrite IH; reflexivity.
Qed.

Lemma filter_absorb {A : Type} (p q : A -> bool) (l : list A) :
  (forall x, p x = true -> q x = true) ->
  filter p (filter q l) = filter p l.
Proof.
  intros Hpq. rewrite filter_andb. apply filter_ext.
  intros x. destruct (p x) eqn:Hp.
  - rewrite (Hpq x Hp). reflexivity.
  - apply andb_false_r.
Qed.

Lemma filter_first_occurrences (p : string -> bool) (l : list string) :
  filter p (first_occurrences l) = first_occurrences (filter p l).
Proof.
  induction l as [|x r IH]; simpl; auto.
  destruct (p x) eqn:Hp; simpl.
  - rewrite <- IH, !filter_andb. f_equal. apply filter_ext.
    intros y. apply andb_comm.
  - rewrite <- IH. apply filter_absorb.
    intros y Hy. destruct (y =? x) eqn:E; auto.
    apply String.eqb_eq in E. congruence.
Qed.

Lemma first_occurrences_In (l : list string) (x : string) :
  In x (first_occurrences l) <-> In x l.
Proof.
  induction l as [|y r IH]; simpl; [tauto|].
  rewrite filter_In, IH. destruct (x =? y) eqn:E.
  - apply String.eqb_eq in E. subst. simpl. intuition congruence.
  - apply String.eqb_neq in E. simpl. intuition congruence.
Qed.

Lemma first_occurrences_NoDup (l : list string) : NoDup (first_occurrences l).
Proof.
  induction l as [|y r IH]; simpl; constructor.
  - rewrite filter_In, String.eqb_refl. simpl. intros [_ H]. discriminate.
  - apply NoDup_filter, IH.
Qed.

Lemma mem_In (k : string) (l : list string) : mem k l = true <-> In k l.
Proof.
  unfold mem. rewrite existsb_exists. split.
  - intros [x [Hx E]]. apply String.eqb_eq in E. congruence.
  - intros H. exists k. split; auto. apply String.eqb_refl.
Qed.

(** ** Dictionaries *)

Section DictFacts.
Context {V : Type} (add : V -> V -> V).
Implicit Types (d : dict V) (k : string) (v a : V).

Lemma dict_get_set_same d k v : dict_get (dict_set d k v) k = Some v.
Proof.
  induction d as [|[k' v'] r IH]; simpl.
  - now rewrite String.eqb_refl.
  - destruct (k' =? k) eqn:E; simpl.
    + now rewrite String.eqb_refl.
    + now rewrite E.
Qed.

Lemma dict_get_set_other d k k' v :
  k <> k' -> dict_get (dict_set d k v) k' = dict_get d k'.
Proof.
  intros Hne. apply String.eqb_neq in Hne.
  induction d as [|[k0 v0] r IH]; simpl.
  - now rewrite Hne.
  - destruct (k0 =? k) eqn:E; simpl.
    + apply String.eqb_eq in E. subst k0. now rewrite Hne.
    + now rewrite IH.
Qed.

Lemma mem_keys d k :
  mem k (keys d) = match dict_get d k with Some _ => true | None => false end.
Proof.
  induction d as [|[k0 v0] r IH]; simpl; auto.
  rewrite (String.eqb_sym k k0). destruct (k0 =? k); auto.
Qed.

Lemma keys_dict_set d k v :
  keys (dict_set d k v) = if mem k (keys d) then keys d else keys d ++ [k].
Proof.
  unfold keys. induction d as [|[k0 v0] r IH]; simpl; auto.
  rewrite (String.eqb_sym k k0). destruct (k0 =? k) eqn:E; simpl.
  - apply String.eqb_eq in E. now subst.
  - rewrite IH. now destruct (mem k (map fst r)).
Qed.

Lemma keys_accumulate d k a :
  keys (accumulate add d k a) =
  if mem k (keys d) then keys d else keys d ++ [k].
Proof.
  unfold accumulate. destruct (dict_get d k); apply keys_dict_set.
Qed.

Lemma dict_get_accumulate_same d k a :
  dict_get (accumulate add d k a) k =
  Some (match dict_get d k with Some v => add v a | None => a end).
Proof.
  unfold accumulate. destruct (dict_get d k); apply dict_get_set_same.
Qed.

Lemma dict_get_accumulate_other d k k' a :
  k <> k' -> dict_get (accumulate add d k a) k' = dict_get d k'.
Proof.
  intros Hne. unfold accumulate.
  destruct (dict_get d k); now apply dict_get_set_other.
Qed.

(** What a run leaves under a key: the amounts filed under it, added up left
    to right onto what was there. *)
Lemma dict_get_accumulate_all kvs : forall d k,
  dict_get (accumulate_all add d kvs) k =
  match dict_get d k with
  | Some v => Some (fold_left add (amounts_of k kvs) v)
  | None => sum_left add (amounts_of k kvs)
  end.
Proof.
  induction kvs as [|[k0 a] r IH]; intros d k.
  - simpl. destruct (dict_get d k); reflexivity.
  - change (accumulate_all add d ((k0, a) :: r))
      with (accumulate_all add (accumulate add d k0 a) r).
    rewrite IH. unfold amounts_of. simpl. destruct (k0 =? k) eqn:E.
    + apply String.eqb_eq in E. subst k0.
      rewrite dict_get_accumulate_same. simpl.
      destruct (dict_get d k); reflexivity.
    + apply String.eqb_neq in E.
      rewrite dict_get_accumulate_other by assumption. reflexivity.
Qed.

(** The keys after a run: the old keys, then the new ones in order of first
    appearance. *)
Lemma keys_accumulate_all kvs : forall d,
  keys (accumulate_all add d kvs) =
  keys d ++
  first_occurrences (filter (fun k => negb (mem k (keys d))) (map fst kvs)).
Proof.
  induction kvs as [|[k0 a] r IH]; intros d.
  - simpl. now rewrite app_nil_r.
  - change (accumulate_all add d ((k0, a) :: r))
      with (accumulate_all add (accumulate add d k0 a) r).
    rewrite IH, keys_accumulate. simpl.
    destruct (mem k0 (keys d)) eqn:Hm; simpl; [reflexivity|].
    rewrite <- app_assoc. simpl. do 2 f_equal.
    rewrite filter_first_occurrences, filter_andb. f_equal.
    apply filter_ext. intros k. unfold mem.
    rewrite existsb_app. simpl. rewrite orb_false_r, negb_orb. reflexivity.
Qed.

Lemma keys_aggregate kvs :
  keys (aggregate add kvs) = first_occurrences (map fst kvs).
Proof.
  unfold aggregate. rewrite keys_accumulate_all. simpl.
  f_equal. induction (map fst kvs); simpl; congruence.
Qed.

Lemma dict_get_aggregate kvs k :
  dict_get (aggregate add kvs) k = sum_left add (amounts_of k kvs).
Proof.
  unfold aggregate. now rewrite dict_get_accumulate_all.
Qed.
End DictFacts.

(** ** The dashboard loop as two groupings *)

Lemma dashboard_loop_from (expenses : list Expense) : forall c m,
  fold_left dashboard_step expenses (c, m) =
  (accumulate_all PrimFloat.add c (map category_pair expenses),
   accumulate_all PrimFloat.add m (map month_pair expenses)).
Proof.
  induction expenses as [|e r IH]; intros c m; simpl.
  - reflexivity.
  - apply IH.
Qed.

Lemma categories_aggregate (expenses : list Expense) :
  categories expenses = aggregate PrimFloat.add (map category_pair expenses).
Proof.
  unfold categories, dashboard_loop. now rewrite dashboard_loop_from.
Qed.

Lemma monthly_data_aggregate (expenses : list Expense) :
  monthly_data expenses = aggregate PrimFloat.add (map month_pair expenses).
Proof.
  unfold monthly_data, dashboard_loop. now rewrite dashboard_loop_from.
Qed.

Lemma amounts_of_category (c : string) (expenses : list Expense) :
  amounts_of c (map category_pair expenses) =
  map amount (filter (fun e => category e =? c) expenses).
Proof.
  unfold amounts_of.
  induction expenses as [|e r IH]; simpl; auto.
  destruct (category e =? c); simpl; now rewrite IH.
Qed.

Lemma amounts_of_month (k : string) (expenses : list Expense) :
  amounts_of k (map month_pair expenses) =
  map amount (filter (fun e => strftime (date e) "%Y-%m" =? k) expenses).
Proof.
  unfold amounts_of.
  induction expenses as [|e r IH]; auto.
  cbn [map filter fst month_pair].
  destruct (strftime (date e) "%Y-%m" =? k); cbn [map snd]; now rewrite IH.
Qed.

(** C8: the per-category aggregate has one key per distinct category, in
    the order in which the categories first occur in the input, and maps
    every category to the sum (taken left to right, in input order) of the
    amounts of the records bearing it; a category that does not occur has no
    entry. *)
Theorem categories_first_occurrence_sums (expenses : list Expense) :
  keys (categories expenses) = first_occurrences (map category expenses) /\
  forall c : string,
    dict_get (categories expenses) c =
    sum_left PrimFloat.add
      (map amount (filter (fun e => category e =? c) expenses)).
Proof.
  rewrite categories_aggregate. split.
  - rewrite keys_aggregate, map_map. reflexivity.
  - intros c. rewrite dict_get_aggregate. f_equal.
    apply amounts_of_category.
Qed.

(** ** Grouping over exact integers *)

Lemma Zsum_app (l1 l2 : list Z) : Zsum (l1 ++ l2) = (Zsum l1 + Zsum l2)%Z.
Proof. induction l1 as [|x r IH]; simpl; lia. Qed.

Lemma Zsum_Permutation (l1 l2 : list Z) :
  Permutation l1 l2 -> Zsum l1 = Zsum l2.
Proof. induction 1; simpl; lia. Qed.

Lemma fold_left_Zadd (l : list Z) (z : Z) :
  fold_left Z.add l z = (z + Zsum l)%Z.
Proof.
  revert z. induction l as [|x r IH]; intros z; simpl.
  - lia.
  - rewrite IH. lia.
Qed.

Lemma sum_left_Zadd (l : list Z) :
  sum_left Z.add l = match l with [] => None | _ :: _ => Some (Zsum l) end.
Proof.
  destruct l as [|x r]; simpl; auto. now rewrite fold_left_Zadd.
Qed.

Lemma Zsum_dict_set (d : dict Z) (k : string) (z : Z) :
  Zsum (values (dict_set d k z)) =
  (Zsum (values d) - match dict_get d k with Some v => v | None => 0 end + z)%Z.
Proof.
  unfold values. induction d as [|[k0 v0] r IH]; simpl.
  - lia.
  - destruct (k0 =? k); simpl; lia.
Qed.

Lemma Zsum_accumulate (d : dict Z) (k : string) (z : Z) :
  Zsum (values (accumulate Z.add d k z)) = (Zsum (values d) + z)%Z.
Proof.
  unfold accumulate. destruct (dict_get d k) as [v|] eqn:E;
    rewrite Zsum_dict_set, E; lia.
Qed.

(** Over the integers a grouping run conserves the total. *)
Lemma Zsum_accumulate_all (kvs : list (string * Z)) : forall d : dict Z,
  Zsum (values (accumulate_all Z.add d kvs)) =
  (Zsum (values d) + Zsum (map snd kvs))%Z.
Proof.
  induction kvs as [|[k z] r IH]; intros d.
  - simpl. lia.
  - change (accumulate_all Z.add d ((k, z) :: r))
      with (accumulate_all Z.add (accumulate Z.add d k z) r).
    rewrite IH, Zsum_accumulate. simpl. lia.
Qed.

Lemma Permutation_amounts_of {V : Type} (k : string)
  (kvs kvs' : list (string * V)) :
  Permutation kvs kvs' -> Permutation (amounts_of k kvs) (amounts_of k kvs').
Proof.
  unfold amounts_of. intros H. apply Permutation_map.
  induction H as [|x l l' _ IH|x y l|l l' l'' _ IH1 _ IH2]; simpl.
  - constructor.
  - destruct (fst x =? k); auto.
  - destruct (fst x =? k), (fst y =? k); auto. constructor.
  - now transitivity (filter (fun kv => fst kv =? k) l').
Qed.

(** Over the integers the aggregate does not depend on the input order. *)
Lemma aggregate_Z_Permutation (kvs kvs' : list (string * Z)) (k : string) :
  Permutation kvs kvs' ->
  dict_get (aggregate Z.add kvs) k = dict_get (aggregate Z.add kvs') k.
Proof.
  intros H. rewrite !dict_get_aggregate, !sum_left_Zadd.
  apply (Permutation_amounts_of k) in H.
  destruct (amounts_of k kvs) as [|x r] eqn:E1;
    destruct (amounts_of k kvs') as [|x' r'] eqn:E2.
  - reflexivity.
  - apply Permutation_nil in H. discriminate.
  - symmetry in H. apply Permutation_nil in H. discriminate.
  - f_equal. now apply Zsum_Permutation.
Qed.

(** ** Runs without rounding compute the exact integers *)

Lemma exact_add_true (x y : float) :
  exact_add x y = true ->
  finite x = true /\ finite y = true /\ finite (x + y)%float = true /\
  value (x + y)%float = (value x + value y)%Z.
Proof.
  unfold exact_add. rewrite !andb_true_iff, Z.eqb_eq. tauto.
Qed.

Lemma values_dict_map {V W : Type} (f : V -> W) (d : dict V) :
  values (dict_map f d) = map f (values d).
Proof.
  unfold values, dict_map. rewrite !map_map. reflexivity.
Qed.

Lemma dict_get_dict_map {V W : Type} (f : V -> W) (d : dict V) (k : string) :
  dict_get (dict_map f d) k = option_map f (dict_get d k).
Proof.
  induction d as [|[k0 v0] r IH]; simpl; auto.
  destruct (k0 =? k); auto.
Qed.

Lemma dict_set_dict_map {V W : Type} (f : V -> W) (d : dict V) (k : string)
  (v : V) :
  dict_map f (dict_set d k v) = dict_set (dict_map f d) k (f v).
Proof.
  induction d as [|[k0 v0] r IH]; simpl; auto.
  destruct (k0 =? k); simpl; [reflexivity|]. now rewrite <- IH.
Qed.

Lemma all_finite_dict_get (d : dict float) (k : string) (v : float) :
  all_finite d = true -> dict_get d k = Some v -> finite v = true.
Proof.
  unfold all_finite, values. induction d as [|[k0 v0] r IH]; simpl.
  - discriminate.
  - rewrite andb_true_iff. intros [H0 Hr]. destruct (k0 =? k).
    + intros E. now inversion E; subst.
    + now apply IH.
Qed.

Lemma all_finite_dict_set (d : dict float) (k : string) (v : float) :
  all_finite d = true -> finite v = true ->
  all_finite (dict_set d k v) = true.
Proof.
  unfold all_finite, values. intros Hd Hv.
  induction d as [|[k0 v0] r IH]; simpl.
  - now rewrite Hv.
  - simpl in Hd. apply andb_true_iff in Hd. destruct Hd as [H0 Hr].
    destruct (k0 =? k); simpl.
    + now rewrite Hv.
    + now rewrite H0, IH.
Qed.

(** One exact step of the float run is the step of the integer run. *)
Lemma accumulate_exact (d : dict float) (k : string) (a : float) :
  all_finite d = true ->
  match dict_get d k with
  | Some v => exact_add v a
  | None => finite a
  end = true ->
  all_finite (accumulate PrimFloat.add d k a) = true /\
  dict_map value (accumulate PrimFloat.add d k a) =
  accumulate Z.add (dict_map value d) k (value a).
Proof.
  intros Hd Hstep. unfold accumulate.
  rewrite dict_get_dict_map. destruct (dict_get d k) as [v|] eqn:E; simpl.
  - apply exact_add_true in Hstep. destruct Hstep as (_ & _ & Hf & Hv).
    split; [now apply all_finite_dict_set|].
    now rewrite dict_set_dict_map, Hv.
  - split; [now apply all_finite_dict_set|]. apply dict_set_dict_map.
Qed.

Lemma accumulate_all_exact (kvs : list (string * float)) :
  forall d : dict float,
  all_finite d = true ->
  exact_accumulation d kvs = true ->
  all_finite (accumulate_all PrimFloat.add d kvs) = true /\
  dict_map value (accumulate_all PrimFloat.add d kvs) =
  accumulate_all Z.add (dict_map value d) (dict_map value kvs).
Proof.
  induction kvs as [|[k a] r IH]; intros d Hd Hex.
  - simpl. auto.
  - simpl in Hex. apply andb_true_iff in Hex. destruct Hex as [Hstep Hrest].
    destruct (accumulate_exact d k a Hd Hstep) as [Hd' Hmap].
    destruct (IH _ Hd' Hrest) as [Hfin Hrun].
    split; [exact Hfin|].
    change (accumulate_all PrimFloat.add d ((k, a) :: r))
      with (accumulate_all PrimFloat.add (accumulate PrimFloat.add d k a) r).
    rewrite Hrun, Hmap. reflexivity.
Qed.

Lemma aggregate_exact (kvs : list (string * float)) :
  exact_accumulation [] kvs = true ->
  dict_map value (aggregate PrimFloat.add kvs) =
  aggregate Z.add (dict_map value kvs).
Proof.
  intros H. now apply (accumulate_all_exact kvs []).
Qed.

(** An exact running total is the exact sum. *)
Lemma exact_sum_value (l : list float) : forall acc : float,
  finite acc = true ->
  exact_sum acc l = true ->
  finite (fold_left PrimFloat.add l acc) = true /\
  value (fold_left PrimFloat.add l acc) = (value acc + Zsum (map value l))%Z.
Proof.
  induction l as [|x r IH]; intros acc Hacc Hex; simpl.
  - split; [assumption | lia].
  - simpl in Hex. apply andb_true_iff in Hex. destruct Hex as [Hstep Hrest].
    apply exact_add_true in Hstep. destruct Hstep as (_ & _ & Hf & Hv).
    destruct (IH _ Hf Hrest) as [Hfin Hval].
    split; [assumption | lia].
Qed.

Lemma sum_floats_exact (l : list float) :
  exact_sum 0%float l = true ->
  finite (sum_floats l) = true /\ value (sum_floats l) = Zsum (map value l).
Proof.
  intros H. destruct (exact_sum_value l 0%float eq_refl H) as [Hf Hv].
  split; [exact Hf|]. unfold sum_floats. rewrite Hv. reflexivity.
Qed.

(** The exact total of an exactly computed aggregate is the exact total of
    the amounts. *)
Lemma aggregate_total_exact (kvs : list (string * float)) :
  exact_accumulation [] kvs = true ->
  Zsum (map value (values (aggregate PrimFloat.add kvs))) =
  Zsum (map value (map snd kvs)).
Proof.
  intros H. rewrite <- values_dict_map, (aggregate_exact kvs H).
  unfold aggregate. rewrite Zsum_accumulate_all. simpl.
  f_equal. unfold dict_map. rewrite !map_map. reflexivity.
Qed.

(** ** Floats with the same exact value compare equal *)

Lemma digits2_pos_log2 (m : positive) :
  Z.pos (digits2_pos m) = (Z.log2 (Z.pos m) + 1)%Z.
Proof.
  assert (Hsize : forall p, digits2_pos p = Pos.size p)
    by (induction p; simpl; congruence).
  rewrite Hsize. destruct m; simpl; rewrite ?Pos2Z.inj_succ; lia.
Qed.

Lemma canonical_exponent (m : positive) (e : Z) :
  canonical_mantissa prec emax m e = true ->
  e = Z.max (Z.log2 (Z.pos m) + 1 + e - 53) (-1074).
Proof.
  unfold canonical_mantissa, fexp, emin. rewrite Z.eqb_eq, digits2_pos_log2.
  change prec with 53%Z. change emax with 1024%Z. lia.
Qed.

(** A valid finite float is determined by its value. *)
Lemma scaled_mantissa_inj (m1 m2 : positive) (e1 e2 : Z) :
  canonical_mantissa prec emax m1 e1 = true ->
  canonical_mantissa prec emax m2 e2 = true ->
  Z.shiftl (Z.pos m1) (e1 + 1074) = Z.shiftl (Z.pos m2) (e2 + 1074) ->
  e1 = e2 /\ m1 = m2.
Proof.
  intros H1 H2 Hv.
  apply canonical_exponent in H1. apply canonical_exponent in H2.
  rewrite !Z.shiftl_mul_pow2 in Hv by lia.
  assert (Hlog : (e1 + 1074 + Z.log2 (Z.pos m1) =
                  e2 + 1074 + Z.log2 (Z.pos m2))%Z).
  { rewrite <- (Z.log2_mul_pow2 (Z.pos m1) (e1 + 1074)) by lia.
    rewrite <- (Z.log2_mul_pow2 (Z.pos m2) (e2 + 1074)) by lia.
    now rewrite Hv. }
  assert (He : e1 = e2) by lia.
  split; [exact He|]. subst e2.
  apply Z.mul_reg_r in Hv.
  - now inversion Hv.
  - apply Z.pow_nonzero; lia.
Qed.

Lemma shiftl_pos_positive (m : positive) (e : Z) :
  canonical_mantissa prec emax m e = true ->
  (0 < Z.shiftl (Z.pos m) (e + 1074))%Z.
Proof.
  intros H. apply canonical_exponent in H.
  rewrite Z.shiftl_mul_pow2 by lia.
  apply Z.mul_pos_pos; [lia|]. apply Z.pow_pos_nonneg; lia.
Qed.

(** Python's [==] on two finite floats that denote the same number. *)
Lemma same_value_eqb (x y : float) :
  finite x = true -> finite y = true -> value x = value y ->
  (x =? y)%float = true.
Proof.
  unfold finite, value, units. rewrite eqb_spec.
  pose proof (Prim2SF_valid x) as Vx. pose proof (Prim2SF_valid y) as Vy.
  destruct (Prim2SF x) as [sx|sx| |sx mx ex];
    destruct (Prim2SF y) as [sy|sy| |sy my ey];
    try discriminate; intros _ _ Hv; simpl in Vx, Vy.
  - reflexivity.
  - apply andb_true_iff in Vy. destruct Vy as [Vy _].
    pose proof (shiftl_pos_positive my ey Vy). destruct sy; lia.
  - apply andb_true_iff in Vx. destruct Vx as [Vx _].
    pose proof (shiftl_pos_positive mx ex Vx). destruct sx; lia.
  - apply andb_true_iff in Vx. destruct Vx as [Vx _].
    apply andb_true_iff in Vy. destruct Vy as [Vy _].
    pose proof (shiftl_pos_positive mx ex Vx).
    pose proof (shiftl_pos_positive my ey Vy).
    assert (Hs : sx = sy) by (destruct sx, sy; auto; lia).
    subst sy.
    assert (Hm : Z.shiftl (Z.pos mx) (ex + 1074) =
                 Z.shiftl (Z.pos my) (ey + 1074)) by (destruct sx; lia).
    destruct (scaled_mantissa_inj mx my ex ey Vx Vy Hm) as [He Hmm].
    subst ey my. unfold SFeqb, SFcompare.
    rewrite Z.compare_refl.
    change (Pos.compare_cont Eq mx mx) with (Pos.compare mx mx).
    rewrite Pos.compare_refl. destruct sx; reflexivity.
Qed.

Lemma aggregate_all_finite (kvs : list (string * float)) :
  exact_accumulation [] kvs = true ->
  all_finite (aggregate PrimFloat.add kvs) = true.
Proof.
  intros H. now apply (accumulate_all_exact kvs []).
Qed.

Lemma amounts_of_pairs (expenses : list Expense) :
  map snd (map category_pair expenses) = map amount expenses /\
  map snd (map month_pair expenses) = map amount expenses.
Proof.
  rewrite !map_map. split; reflexivity.
Qed.

(** ** Conservation of the total *)

(** C1, as the code has it: when no floating-point addition rounds (neither
    in the two groupings nor in the three totals), the total of the
    per-category aggregate, the total of the per-month aggregate and the
    total of the amounts are equal under [==], for every collection, empty or
    not; and that total is the exact sum of the amounts. *)
Theorem conservation_of_total_without_rounding (expenses : list Expense) :
  no_rounding expenses = true ->
  (sum_floats (values (categories expenses)) =?
   sum_floats (values (monthly_data expenses)))%float = true /\
  (sum_floats (values (monthly_data expenses)) =?
   sum_floats (map amount expenses))%float = true /\
  finite (sum_floats (map amount expenses)) = true /\
  value (sum_floats (map amount expenses)) =
  Zsum (map value (map amount expenses)).
Proof.
  unfold no_rounding. rewrite !andb_true_iff.
  intros [[[[Hc Hm] Hsc] Hsm] Hst].
  destruct (sum_floats_exact _ Hsc) as [Fc Vc].
  destruct (sum_floats_exact _ Hsm) as [Fm Vm].
  destruct (sum_floats_exact _ Hst) as [Ft Vt].
  destruct (amounts_of_pairs expenses) as [Ec Em].
  assert (Tc : value (sum_floats (values (categories expenses))) =
               Zsum (map value (map amount expenses))).
  { rewrite Vc, categories_aggregate, (aggregate_total_exact _ Hc), Ec.
    reflexivity. }
  assert (Tm : value (sum_floats (values (monthly_data expenses))) =
               Zsum (map value (map amount expenses))).
  { rewrite Vm, monthly_data_aggregate, (aggregate_total_exact _ Hm), Em.
    reflexivity. }
  repeat split; try assumption.
  - apply same_value_eqb; congruence.
  - apply same_value_eqb; congruence.
Qed.

Lemma conservation_of_total_sample :
  no_rounding sample_expenses = true /\
  (sum_floats (values (categories sample_expenses)) =?
   sum_floats (values (monthly_data sample_expenses)))%float = true /\
  (sum_floats (values (monthly_data sample_expenses)) =?
   sum_floats (map amount sample_expenses))%float = true /\
  finite (sum_floats (map amount sample_expenses)) = true /\
  value (sum_floats (map amount sample_expenses)) =
  Zsum (map value (map amount sample_expenses)).
Proof.
  split.
  - vm_compute. reflexivity.
  - apply (conservation_of_total_without_rounding sample_expenses).
    vm_compute. reflexivity.
Defined.

(** C1 as stated fails: with the amounts 0.1, 0.2 and 0.3 the per-category
    total is 0.6000000000000001 and the per-month total is 0.6. *)
Lemma conservation_of_total_rounding :
  exists expenses : list Expense,
    expenses <> [] /\
    (sum_floats (values (categories expenses)) =?
     sum_floats (values (monthly_data expenses)))%float = false.
Proof.
  exists rounding_sample. split.
  - discriminate.
  - vm_compute. reflexivity.
Qed.

(** ** Reordering the input *)

Lemma keys_aggregate_Permutation {V : Type} (add : V -> V -> V)
  (kvs kvs' : list (string * V)) :
  Permutation kvs kvs' ->
  Permutation (keys (aggregate add kvs)) (keys (aggregate add kvs')).
Proof.
  intros H. rewrite !keys_aggregate.
  apply NoDup_Permutation; try apply first_occurrences_NoDup.
  intros k. rewrite !first_occurrences_In.
  apply (Permutation_map fst) in H.
  split; apply Permutation_in; [assumption | now symmetry].
Qed.

(** C7, as the code has it: reordering the input leaves the set of month
    keys unchanged; and when no [+=] rounds in either run, every month is
    mapped to a sum that is equal under [==] in both aggregates. *)
Theorem monthly_data_reordering (expenses expenses' : list Expense) :
  Permutation expenses expenses' ->
  Permutation (keys (monthly_data expenses)) (keys (monthly_data expenses')) /\
  (exact_accumulation [] (map month_pair expenses) = true ->
   exact_accumulation [] (map month_pair expenses') = true ->
   forall (k : string) (v : float),
     dict_get (monthly_data expenses) k = Some v ->
     exists v' : float,
       dict_get (monthly_data expenses') k = Some v' /\
       (v =? v')%float = true).
Proof.
  intros Hperm. rewrite !monthly_data_aggregate.
  apply (Permutation_map month_pair) in Hperm. split.
  - now apply keys_aggregate_Permutation.
  - intros Hex Hex' k v Hget.
    pose proof (aggregate_all_finite _ Hex) as Hfin.
    pose proof (aggregate_all_finite _ Hex') as Hfin'.
    assert (Hval : option_map value
                     (dict_get (aggregate PrimFloat.add (map month_pair expenses)) k) =
                   option_map value
                     (dict_get (aggregate PrimFloat.add (map month_pair expenses')) k)).
    { rewrite <- !dict_get_dict_map, (aggregate_exact _ Hex),
        (aggregate_exact _ Hex').
      apply aggregate_Z_Permutation.
      unfold dict_map. now apply Permutation_map. }
    rewrite Hget in Hval. simpl in Hval.
    destruct (dict_get (aggregate PrimFloat.add (map month_pair expenses')) k)
      as [v'|] eqn:Hget'; [|discriminate].
    exists v'. split; [reflexivity|].
    apply same_value_eqb.
    + exact (all_finite_dict_get _ _ _ Hfin Hget).
    + exact (all_finite_dict_get _ _ _ Hfin' Hget').
    + simpl in Hval. congruence.
Qed.

Lemma monthly_data_reordering_sample :
  Permutation sample_expenses (rev sample_expenses) /\
  Permutation (keys (monthly_data sample_expenses))
    (keys (monthly_data (rev sample_expenses))) /\
  exact_accumulation [] (map month_pair sample_expenses) = true /\
  exact_accumulation [] (map month_pair (rev sample_expenses)) = true /\
  forall (k : string) (v : float),
    dict_get (monthly_data sample_expenses) k = Some v ->
    exists v' : float,
      dict_get (monthly_data (rev sample_expenses)) k = Some v' /\
      (v =? v')%float = true.
Proof.
  pose proof (monthly_data_reordering sample_expenses (rev sample_expenses)
                (Permutation_rev sample_expenses)) as [Hkeys Hvalues].
  split; [apply Permutation_rev|].
  split; [exact Hkeys|].
  split; [vm_compute; reflexivity|].
  split; [vm_compute; reflexivity|].
  apply Hvalues; vm_compute; reflexivity.
Defined.

(** C7 as stated fails: 0.1, 0.2 and 0.3 spent in one month add up to
    0.6000000000000001 in this order and to 0.6 in the reverse order. *)
Lemma monthly_data_reordering_rounding :
  exists (expenses expenses' : list Expense) (v v' : float),
    Permutation expenses expenses' /\
    dict_get (monthly_data expenses) "2024-01" = Some v /\
    dict_get (monthly_data expenses') "2024-01" = Some v' /\
    (v =? v')%float = false.
Proof.
  exists one_month_sample, (rev one_month_sample).
  exists ((0.1 + 0.2) + 0.3)%float, ((0.3 + 0.2) + 0.1)%float.
  split; [apply Permutation_rev|].
  repeat split; vm_compute; reflexivity.
Qed.

(** ** Sorting *)

Section SortFacts.
Context {A : Type} (leb : A -> A -> bool).
Hypothesis leb_total : forall a b, leb a b = true \/ leb b a = true.

Lemma insert_sorted_Permutation (x : A) (l : list A) :
  Permutation (insert_sorted leb x l) (x :: l).
Proof.
  induction l as [|y r IH]; simpl.
  - reflexivity.
  - destruct (leb x y); [reflexivity|].
    rewrite IH. apply perm_swap.
Qed.

Lemma sort_by_Permutation (l : list A) : Permutation (sort_by leb l) l.
Proof.
  induction l as [|x r IH]; simpl.
  - constructor.
  - rewrite insert_sorted_Permutation. now constructor.
Qed.

Lemma insert_sorted_Sorted (x : A) (l : list A) :
  Sorted (fun a b => leb a b = true) l ->
  Sorted (fun a b => leb a b = true) (insert_sorted leb x l).
Proof.
  induction 1 as [|y r Hr IH Hhd]; simpl.
  - repeat constructor.
  - destruct (leb x y) eqn:E.
    + repeat constructor; assumption.
    + constructor; [exact IH|].
      destruct (leb_total x y) as [Hxy|Hyx]; [congruence|].
      destruct r as [|z r']; simpl.
      * now constructor.
      * inversion Hhd; subst. destruct (leb x z); now constructor.
Qed.

Lemma sort_by_Sorted (l : list A) :
  Sorted (fun a b => leb a b = true) (sort_by leb l).
Proof.
  induction l as [|x r IH]; simpl.
  - constructor.
  - now apply insert_sorted_Sorted.
Qed.
End SortFacts.

Lemma Sorted_weaken {A : Type} (R R' : A -> A -> Prop) (l : list A) :
  (forall a b, In a l -> In b l -> R a b -> R' a b) ->
  Sorted R l -> Sorted R' l.
Proof.
  intros Himp H. induction H as [|x r Hr IH Hhd].
  - constructor.
  - constructor.
    + apply IH. intros a b Ha Hb. apply Himp; now right.
    + destruct Hhd as [|y r' Hxy]; constructor.
      apply Himp; simpl; auto.
Qed.

Lemma StronglySorted_weaken {A : Type} (R R' : A -> A -> Prop) (l : list A) :
  (forall a b, In a l -> In b l -> R a b -> R' a b) ->
  StronglySorted R l -> StronglySorted R' l.
Proof.
  intros Himp H. induction H as [|x r Hr IH Hall].
  - constructor.
  - constructor.
    + apply IH. intros a b Ha Hb. apply Himp; now right.
    + rewrite Forall_forall in *. intros y Hy.
      apply Himp; simpl; auto.
Qed.

(** ** Month keys: lexicographic order is chronological order *)

Lemma is_digit_value (c : ascii) :
  is_digit c = true -> N_of_ascii c = (48 + digit_value c)%N /\ (digit_value c <= 9)%N.
Proof.
  unfold is_digit, digit_value. rewrite andb_true_iff, !N.leb_le. lia.
Qed.

Lemma digit_compare (a b : ascii) :
  is_digit a = true -> is_digit b = true ->
  Ascii.compare a b = N.compare (digit_value a) (digit_value b).
Proof.
  intros Ha Hb. unfold Ascii.compare.
  destruct (is_digit_value a Ha) as [-> _].
  destruct (is_digit_value b Hb) as [-> _].
  destruct (N.compare_spec (48 + digit_value a) (48 + digit_value b));
    destruct (N.compare_spec (digit_value a) (digit_value b));
    try reflexivity; lia.
Qed.

Lemma parse_month_key_inv (k : string) (y m : N) :
  parse_month_key k = Some (y, m) ->
  exists a b c d e f : ascii,
    k = String a (String b (String c (String d
          (String "-" (String e (String f "")))))) /\
    Forall (fun x => is_digit x = true) [a; b; c; d; e; f] /\
    y = number4 a b c d /\ m = number2 e f /\ (1 <= m <= 12)%N.
Proof.
  destruct k as [|a [|b [|c [|d [|s [|e [|f [|? ?]]]]]]]]; try discriminate.
  unfold parse_month_key.
  destruct (forallb is_digit [a; b; c; d; e; f] && Ascii.eqb s "-" &&
            (1 <=? number2 e f)%N && (number2 e f <=? 12)%N) eqn:C;
    [|discriminate].
  intros E. inversion E; subst y m. clear E.
  rewrite !andb_true_iff, !N.leb_le, Ascii.eqb_eq, forallb_forall in C.
  destruct C as [[[Hd Hs] H1] H12]. subst s.
  exists a, b, c, d, e, f. repeat split; try assumption.
  apply Forall_forall. exact Hd.
Qed.

Lemma month_key_order (k1 k2 : string) (y1 m1 y2 m2 : N) :
  parse_month_key k1 = Some (y1, m1) ->
  parse_month_key k2 = Some (y2, m2) ->
  (k1 <=? k2)%string = (12 * y1 + m1 <=? 12 * y2 + m2)%N.
Proof.
  intros H1 H2.
  apply parse_month_key_inv in H1. apply parse_month_key_inv in H2.
  destruct H1 as (a1 & b1 & c1 & d1 & e1 & f1 & -> & D1 & -> & -> & R1).
  destruct H2 as (a2 & b2 & c2 & d2 & e2 & f2 & -> & D2 & -> & -> & R2).
  repeat match goal with
         | H : Forall _ (_ :: _) |- _ => inversion H; subst; clear H
         | H : Forall _ [] |- _ => clear H
         end.
  unfold String.leb. cbn [String.compare].
  change (Ascii.compare "-" "-") with Eq. cbv iota.
  rewrite !digit_compare by assumption.
  unfold number4, number2 in *.
  repeat match goal with
         | H : is_digit ?c = true |- _ =>
             apply is_digit_value in H; destruct H as [_ H];
             generalize dependent (digit_value c); intros
         end.
  repeat match goal with
         | |- context [N.compare ?x ?y] => destruct (N.compare_spec x y)
         end;
    match goal with
    | |- _ = (?p <=? ?q)%N => destruct (N.leb_spec p q)
    end; try reflexivity; lia.
Qed.

Lemma is_month_key_parse (k : string) :
  is_month_key k = true ->
  exists y m : N, parse_month_key k = Some (y, m).
Proof.
  unfold is_month_key. destruct (parse_month_key k) as [[y m]|];
    [eauto | discriminate].
Qed.

Lemma month_key_leb_index (a b : string) :
  is_month_key a = true -> is_month_key b = true ->
  (a <=? b)%string = (month_index a <=? month_index b)%N.
Proof.
  intros Ha Hb.
  destruct (is_month_key_parse a Ha) as (y1 & m1 & E1).
  destruct (is_month_key_parse b Hb) as (y2 & m2 & E2).
  unfold month_index. rewrite E1, E2. now apply month_key_order.
Qed.

(** ** Formatting dates *)

Ltac lia_div := zify; Z.to_euclidean_division_equations; lia.

Lemma N_of_ascii_digit (n : N) : N_of_ascii (digit n) = (48 + n mod 10)%N.
Proof.
  unfold digit. apply N_ascii_embedding. lia_div.
Qed.

Lemma is_digit_digit (n : N) : is_digit (digit n) = true.
Proof.
  unfold is_digit. rewrite N_of_ascii_digit, andb_true_iff, !N.leb_le.
  lia_div.
Qed.

Lemma digit_value_digit (n : N) : digit_value (digit n) = (n mod 10)%N.
Proof.
  unfold digit_value. rewrite N_of_ascii_digit. lia_div.
Qed.

Lemma number2_dec (n : N) :
  (n < 100)%N -> number2 (digit (n / 10)) (digit n) = n.
Proof.
  intros H. unfold number2. rewrite !digit_value_digit. lia_div.
Qed.

Lemma number4_dec (n : N) :
  (n < 10000)%N ->
  number4 (digit (n / 1000)) (digit (n / 100)) (digit (n / 10)) (digit n) = n.
Proof.
  intros H. unfold number4, number2. rewrite !digit_value_digit. lia_div.
Qed.

Lemma days_in_month_le (y m : N) : (days_in_month y m <= 31)%N.
Proof.
  unfold days_in_month.
  repeat match goal with
         | |- context [match ?p with _ => _ end] => destruct p
         end; lia.
Qed.

Lemma datetime_ok_bounds (d : datetime) :
  datetime_ok d = true ->
  (1 <= year d <= 9999)%N /\ (1 <= month d <= 12)%N /\ (1 <= day d <= 31)%N.
Proof.
  unfold datetime_ok. intros H.
  do 4 (apply andb_prop in H; destruct H as [H _]).
  apply andb_prop in H. destruct H as [H Hd2].
  apply andb_prop in H. destruct H as [H Hd1].
  apply andb_prop in H. destruct H as [H Hm2].
  apply andb_prop in H. destruct H as [H Hm1].
  apply andb_prop in H. destruct H as [Hy1 Hy2].
  apply N.leb_le in Hy1, Hy2, Hm1, Hm2, Hd1, Hd2.
  pose proof (days_in_month_le (year d) (month d)). lia.
Qed.

Lemma four_digit_year_bounds (d : datetime) :
  four_digit_year d = true ->
  (1000 <= year d <= 9999)%N /\ (1 <= month d <= 12)%N /\
  (1 <= day d <= 31)%N.
Proof.
  unfold four_digit_year. rewrite andb_true_iff, N.leb_le.
  intros [Hok Hy]. apply datetime_ok_bounds in Hok. lia.
Qed.

Lemma dec_year_four (y : N) : (1000 <= y)%N -> dec_year y = dec4 y.
Proof.
  intros Hy. unfold dec_year.
  replace (y <? 10)%N with false by (symmetry; apply N.ltb_ge; lia).
  replace (y <? 100)%N with false by (symmetry; apply N.ltb_ge; lia).
  replace (y <? 1000)%N with false by (symmetry; apply N.ltb_ge; lia).
  reflexivity.
Qed.

Lemma strftime_Ym (d : datetime) :
  (1000 <= year d)%N ->
  strftime d "%Y-%m" =
  String (digit (year d / 1000)) (String (digit (year d / 100))
    (String (digit (year d / 10)) (String (digit (year d))
      (String "-" (String (digit (month d / 10))
        (String (digit (month d)) "")))))).
Proof.
  intros Hy.
  change (strftime d "%Y-%m")
    with (dec_year (year d) ++ String "-" (dec2 (month d)))%string.
  rewrite (dec_year_four _ Hy). reflexivity.
Qed.

Lemma strftime_Ymd (d : datetime) :
  (1000 <= year d)%N ->
  strftime d "%Y-%m-%d" =
  String (digit (year d / 1000)) (String (digit (year d / 100))
    (String (digit (year d / 10)) (String (digit (year d))
      (String "-" (String (digit (month d / 10)) (String (digit (month d))
        (String "-" (String (digit (day d / 10))
          (String (digit (day d)) ""))))))))).
Proof.
  intros Hy.
  change (strftime d "%Y-%m-%d")
    with (dec_year (year d) ++
          String "-" (dec2 (month d) ++ String "-" (dec2 (day d))))%string.
  rewrite (dec_year_four _ Hy). reflexivity.
Qed.

(** The month key of a [datetime] with a four-digit year reads back as its
    year and month. *)
Lemma strftime_month_key (d : datetime) :
  four_digit_year d = true ->
  parse_month_key (strftime d "%Y-%m") = Some (year d, month d).
Proof.
  intros H. apply four_digit_year_bounds in H. destruct H as (Hy & Hm & _).
  rewrite strftime_Ym by lia. unfold parse_month_key. cbn [forallb].
  rewrite !is_digit_digit, number4_dec, number2_dec by lia.
  cbn [andb Ascii.eqb Bool.eqb].
  replace (1 <=? month d)%N with true by (symmetry; apply N.leb_le; lia).
  replace (month d <=? 12)%N with true by (symmetry; apply N.leb_le; lia).
  reflexivity.
Qed.

(** The exported date of such a [datetime] reads back as its year, month
    and day. *)
Lemma strftime_iso_date (d : datetime) :
  four_digit_year d = true ->
  parse_iso_date (strftime d "%Y-%m-%d") = Some (year d, month d, day d).
Proof.
  intros H. apply four_digit_year_bounds in H. destruct H as (Hy & Hm & Hd).
  rewrite strftime_Ymd by lia. unfold parse_iso_date. cbn [forallb].
  rewrite !is_digit_digit, number4_dec, !number2_dec by lia.
  reflexivity.
Qed.

(** Every key of the monthly aggregate of records with four-digit years is
    a month key. *)
Lemma monthly_data_keys_valid (expenses : list Expense) :
  (forall e, In e expenses -> four_digit_year (date e) = true) ->
  forallb is_month_key (keys (monthly_data expenses)) = true.
Proof.
  intros Hok. apply forallb_forall. intros k Hk.
  rewrite monthly_data_aggregate, keys_aggregate, first_occurrences_In in Hk.
  rewrite map_map in Hk. apply in_map_iff in Hk.
  destruct Hk as (e & <- & He).
  change (is_month_key (strftime (date e) "%Y-%m") = true).
  unfold is_month_key. now rewrite (strftime_month_key _ (Hok e He)).
Qed.

(** ** Sorted months *)

(** C5: for every monthly aggregate whose keys are zero-padded [YYYY-MM]
    month keys, the sorted months of the dashboard (line 96,
    [sorted(monthly_data.keys())]) are the same keys in non-decreasing
    lexicographic order, and that order is the chronological one: on these
    keys the two orders coincide, and the months of the output never go
    back in time. *)
Theorem sorted_months_chronological (monthly : dict float) :
  forallb is_month_key (keys monthly) = true ->
  Permutation (sorted_months monthly) (keys monthly) /\
  StronglySorted (fun a b => (a <=? b)%string = true)
    (sorted_months monthly) /\
  StronglySorted (fun a b => (month_index a <= month_index b)%N)
    (sorted_months monthly) /\
  forall a b : string, In a (keys monthly) -> In b (keys monthly) ->
    ((a <=? b)%string = true <-> (month_index a <= month_index b)%N).
Proof.
  intros Hvalid. rewrite forallb_forall in Hvalid.
  pose proof (sort_by_Permutation String.leb (keys monthly)) as Hperm.
  pose proof (sort_by_Sorted String.leb String.leb_total (keys monthly))
    as Hsorted.
  fold (sorted (keys monthly)) in Hperm, Hsorted.
  fold (sorted_months monthly) in Hperm, Hsorted.
  assert (Hiff : forall a b, In a (keys monthly) -> In b (keys monthly) ->
            ((a <=? b)%string = true <-> (month_index a <= month_index b)%N)).
  { intros a b Ha Hb.
    rewrite (month_key_leb_index a b (Hvalid a Ha) (Hvalid b Hb)).
    apply N.leb_le. }
  assert (Hchrono : StronglySorted
            (fun a b => (month_index a <= month_index b)%N)
            (sorted_months monthly)).
  { apply Sorted_StronglySorted.
    - intros a b c Hab Hbc. now transitivity (month_index b).
    - apply (Sorted_weaken _ _ _ (fun a b Ha Hb =>
               proj1 (Hiff a b (Permutation_in a Hperm Ha)
                               (Permutation_in b Hperm Hb)))).
      exact Hsorted. }
  repeat split.
  - exact Hperm.
  - apply (StronglySorted_weaken _ _ _ (fun a b Ha Hb =>
             proj2 (Hiff a b (Permutation_in a Hperm Ha)
                             (Permutation_in b Hperm Hb)))).
    exact Hchrono.
  - exact Hchrono.
  - apply Hiff; assumption.
  - apply Hiff; assumption.
Qed.

Lemma sorted_months_chronological_sample :
  keys (monthly_data march_first) = ["2024-03"; "2024-01"; "2024-02"] /\
  forallb is_month_key (keys (monthly_data march_first)) = true /\
  sorted_months (monthly_data march_first) =
  ["2024-01"; "2024-02"; "2024-03"] /\
  StronglySorted (fun a b => (month_index a <= month_index b)%N)
    (sorted_months (monthly_data march_first)).
Proof.
  split; [vm_compute; reflexivity|].
  split; [vm_compute; reflexivity|].
  split; [vm_compute; reflexivity|].
  apply (sorted_months_chronological (monthly_data march_first)).
  vm_compute. reflexivity.
Defined.

(** ** The list comprehension of the dashboard *)

Lemma comprehension_defined {A B : Type} (f : A -> option B) (xs : list A) :
  (forall x, In x xs -> f x <> None) ->
  exists ys : list B, comprehension f xs = Some ys /\
                      List.length ys = List.length xs.
Proof.
  induction xs as [|x r IH]; intros Hdef.
  - exists []. split; reflexivity.
  - destruct IH as (ys & Hys & Hlen); [intros y Hy; apply Hdef; now right|].
    simpl. destruct (f x) as [y|] eqn:E.
    + rewrite Hys. exists (y :: ys). split; [reflexivity|]. simpl. congruence.
    + exfalso. apply (Hdef x); [now left | exact E].
Qed.

(** Every sorted month is a key of [monthly_data]: the list comprehension
    finds a value for each of them. *)
Lemma monthly_values_defined (expenses : list Expense) :
  exists vs : list float,
    monthly_values expenses = Some vs /\
    List.length vs = List.length (sorted_months (monthly_data expenses)).
Proof.
  unfold monthly_values. apply comprehension_defined.
  intros k Hk Hnone. unfold sorted_months in Hk.
  apply (Permutation_in k (sort_by_Permutation String.leb _)) in Hk.
  apply mem_In in Hk. rewrite mem_keys, Hnone in Hk. discriminate.
Qed.

(** ** Empty input *)

(** C6: on the empty collection both aggregates are the empty mapping, each
    chart helper answers [None] for an empty mapping (an empty month
    sequence, whatever the values), and the dashboard of an empty table is
    rendered with both charts absent: nothing is raised. *)
Theorem empty_collection_no_chart
  (pie_png : dict float -> result string)
  (line_png : list string -> list float -> result string)
  (amounts : list float) (messages : list (string * string)) :
  categories [] = [] /\
  monthly_data [] = [] /\
  generate_pie_chart pie_png [] = inr None /\
  generate_line_chart line_png [] amounts = inr None /\
  dashboard pie_png line_png (mk_world [] messages) =
  (render_template (dashboard_html None None []), mk_world [] messages).
Proof.
  assert (Hc : categories [] = []) by reflexivity.
  assert (Hm : monthly_data [] = []) by reflexivity.
  assert (Hs : sorted_months [] = []) by reflexivity.
  assert (Hv : monthly_values [] = Some []) by reflexivity.
  split; [exact Hc|]. split; [exact Hm|].
  split; [reflexivity|]. split; [reflexivity|].
  unfold dashboard, query_all. cbn [expenses_table].
  rewrite Hv, Hc, Hm, Hs. reflexivity.
Qed.

(** ** Export *)

(** C9: the export of an empty table is the header row alone, that is the
    file [Date,Category,Description,Amount (₹)] ended by CR LF. *)
Theorem export_csv_empty (float_str : float -> string)
  (messages : list (string * string)) :
  export_rows [] = [header] /\
  data_rows [] = [] /\
  export_csv float_str (mk_world [] messages) =
  (send_file ("Date,Category,Description,Amount (₹)" ++ CRLF)
     "expenses.csv" "text/csv",
   mk_world [] messages).
Proof.
  assert (Hrows : export_rows [] = [header]) by reflexivity.
  split; [exact Hrows|]. split; [reflexivity|].
  unfold export_csv. cbn [expenses_table]. rewrite Hrows.
  reflexivity.
Qed.


Lemma string_app_assoc (a b c : string) :
  ((a ++ b) ++ c)%string = (a ++ (b ++ c))%string.
Proof.
  induction a as [|x a IH]; simpl; [reflexivity|]. now rewrite IH.
Qed.

Lemma fold_left_writerow (float_str : float -> string)
  (rows : list (list cell)) : forall acc : string,
  fold_left (writerow float_str) rows acc =
  (acc ++ fold_left (writerow float_str) rows "")%string.
Proof.
  induction rows as [|r rows IH]; intros acc; simpl.
  - induction acc as [|x acc IHacc]; simpl; congruence.
  - rewrite IH. rewrite (IH (writerow float_str "" r)).
    unfold writerow. simpl. now rewrite string_app_assoc.
Qed.

Lemma fold_left_writerow_concat (float_str : float -> string)
  (rows : list (list cell)) :
  fold_left (writerow float_str) rows "" =
  concat_strings (map (writerow float_str "") rows).
Proof.
  induction rows as [|r rows IH]; [reflexivity|].
  simpl. rewrite fold_left_writerow, IH. reflexivity.
Qed.

Lemma special_digit (n : N) : special (digit n) = false.
Proof.
  assert (H : forall c, N_of_ascii c < 48 -> Ascii.eqb (digit n) c = false).
  { intros c Hc. apply Ascii.eqb_neq. intros E.
    apply (f_equal N_of_ascii) in E. rewrite N_of_ascii_digit in E.
    lia_div. }
  unfold special.
  rewrite (H COMMA), (H DQUOTE), (H CR), (H LF) by (vm_compute; reflexivity).
  reflexivity.
Qed.

(** A date with a four-digit year is written without quotes. *)
Lemma csv_field_iso_date (d : datetime) :
  (1000 <= year d)%N ->
  csv_field (strftime d "%Y-%m-%d") = strftime d "%Y-%m-%d".
Proof.
  intros Hy. unfold csv_field.
  replace (has_special (strftime d "%Y-%m-%d")) with false; [reflexivity|].
  rewrite (strftime_Ymd d Hy). cbn [has_special].
  rewrite !special_digit. reflexivity.
Qed.

(** The line [writerow] writes for a record: its date, a comma, and the
    other three fields. *)
Lemma writerow_export_row (float_str : float -> string) (e : Expense) :
  (1000 <= year (date e))%N ->
  writerow float_str "" (export_row e) =
  (strftime (date e) "%Y-%m-%d" ++ "," ++
   (csv_field (category e) ++ "," ++
    csv_field (cell_text float_str
                 match description e with
                 | Some s => CStr s
                 | None => CNone
                 end) ++ "," ++
    csv_field (float_str (amount e))) ++ CRLF)%string.
Proof.
  intros Hy. unfold writerow, export_row. cbn [map join cell_text].
  rewrite (csv_field_iso_date _ Hy).
  change ("" ++ ?x)%string with x.
  rewrite !string_app_assoc. reflexivity.
Qed.

(** C3, as the code has it: the file [export_csv] sends is the header line
    followed by one line per stored record, in the order in which the
    unordered listing [Expense.query.all()] returns the records (the rows
    are not sorted by date); and the line of a record whose year has four
    digits starts with its date written as [YYYY-MM-DD]. *)
Theorem export_csv_in_table_order (float_str : float -> string) (w : world) :
  exists lines : list string,
    export_csv float_str w =
    (send_file
       ("Date,Category,Description,Amount (₹)" ++ CRLF ++ concat_strings lines)
       "expenses.csv" "text/csv",
     w) /\
    Forall2
      (fun e line =>
         line = writerow float_str "" (export_row e) /\
         (four_digit_year (date e) = true ->
          exists iso rest : string,
            line = (iso ++ "," ++ rest)%string /\
            parse_iso_date iso =
            Some (year (date e), month (date e), day (date e))))
      (query_all (expenses_table w)) lines.
Proof.
  exists (map (fun e => writerow float_str "" (export_row e))
            (expenses_table w)).
  split.
  - unfold export_csv, export_rows, query_all.
    rewrite fold_left_writerow_concat. cbn [map]. rewrite map_map.
    reflexivity.
  - unfold query_all. induction (expenses_table w) as [|e t IH]; simpl.
    + constructor.
    + constructor; [|exact IH].
      split; [reflexivity|]. intros He.
      destruct (four_digit_year_bounds _ He) as (Hy & _ & _).
      eexists. eexists. split.
      * apply writerow_export_row. lia.
      * now apply strftime_iso_date.
Qed.

Lemma export_csv_in_table_order_sample :
  forallb (fun e => four_digit_year (date e)) sample_expenses = true /\
  forall float_str : float -> string,
  exists lines : list string,
    List.length lines = 3%nat /\
    fst (export_csv float_str (mk_world sample_expenses [])) =
    send_file
      ("Date,Category,Description,Amount (₹)" ++ CRLF ++ concat_strings lines)
      "expenses.csv" "text/csv".
Proof.
  split; [vm_compute; reflexivity|]. intros float_str.
  destruct (export_csv_in_table_order float_str (mk_world sample_expenses []))
    as (lines & Hfile & Hlines).
  exists lines. split.
  - apply Forall2_length in Hlines. simpl in Hlines. congruence.
  - now rewrite Hfile.
Defined.

(** C3 as stated fails twice.  After adding an expense dated 2024-01-15 and
    then one dated 2024-02-01, the export lists the older one first.  And a
    record dated in the year 999 is exported as [999-12-31], which is not of
    the form [YYYY-MM-DD]. *)
Lemma export_csv_oldest_first_short_year :
  map date (expenses_table after_two_adds) =
  [sample_date 2024 1 15; sample_date 2024 2 1] /\
  newest_first (map date (query_all (expenses_table after_two_adds))) = false /\
  (forall float_str : float -> string,
     fst (export_csv float_str after_two_adds) =
     send_file
       ("Date,Category,Description,Amount (₹)" ++ CRLF ++
        "2024-01-15,Food,groceries," ++ csv_field (float_str 100%float) ++ CRLF ++
        "2024-02-01,Food,lunch," ++ csv_field (float_str 50%float) ++ CRLF)
       "expenses.csv" "text/csv") /\
  datetime_ok (date short_year_expense) = true /\
  (forall float_str : float -> string,
     fst (export_csv float_str (mk_world [short_year_expense] [])) =
     send_file
       ("Date,Category,Description,Amount (₹)" ++ CRLF ++
        "999-12-31,Food,old," ++ csv_field (float_str 100%float) ++ CRLF)
       "expenses.csv" "text/csv") /\
  parse_iso_date "999-12-31" = None.
Proof.
  assert (Ht : expenses_table after_two_adds =
    [ mk_Expense 1 100 "Food" (sample_date 2024 1 15) (Some "groceries");
      mk_Expense 2 50 "Food" (sample_date 2024 2 1) (Some "lunch") ])
    by (vm_compute; reflexivity).
  split; [now rewrite Ht|]. split; [now rewrite Ht|].
  split; [|split; [vm_compute; reflexivity|split; [|reflexivity]]].
  - intros float_str. unfold export_csv. rewrite Ht.
    unfold export_rows, query_all.
    rewrite fold_left_writerow_concat. cbn [map concat_strings fold_right].
    rewrite !writerow_export_row by (vm_compute; discriminate).
    rewrite !string_app_assoc. reflexivity.
  - intros float_str. unfold export_csv. cbn [expenses_table].
    unfold export_rows, query_all.
    rewrite fold_left_writerow_concat.
    cbn [map concat_strings fold_right fst]. unfold writerow.
    rewrite !string_app_assoc. reflexivity.
Qed.

(** ** Deleting *)

Lemma order_by_date_desc_Permutation (t : table) :
  Permutation (order_by_date_desc t) t.
Proof. apply sort_by_Permutation. Qed.

Lemma query_get_none (i : Z) (t : table) :
  query_get i t = None <-> ~ In i (map id t).
Proof.
  unfold query_get. split.
  - intros Hnone Hin. apply in_map_iff in Hin. destruct Hin as (e & He & Hin).
    pose proof (find_none _ _ Hnone e Hin) as Hneq. simpl in Hneq.
    apply Z.eqb_neq in Hneq. contradiction.
  - intros Hnot. destruct (find (fun e => (id e =? i)%Z) t) as [e|] eqn:E; auto.
    apply find_some in E. destruct E as [Hin Heq]. apply Z.eqb_eq in Heq.
    exfalso. apply Hnot. apply in_map_iff. eauto.
Qed.

Lemma session_delete_In (e r : Expense) (t : table) :
  In r (session_delete e t) <-> In r t /\ id r <> id e.
Proof.
  unfold session_delete. rewrite filter_In, negb_true_iff, Z.eqb_neq.
  reflexivity.
Qed.

(** The two ways [delete_expense] can go. *)
Lemma delete_expense_cases (i : Z) (w : world) :
  (query_get i (expenses_table w) = None /\
   delete_expense i w =
   (if int64 i then abort 404 else raised OverflowError, w)) \/
  (exists e : Expense,
     query_get i (expenses_table w) = Some e /\ id e = i /\
     delete_expense i w =
     (redirect "view_expenses",
      mk_world (session_delete e (expenses_table w))
        (flashes w ++ [("Expense deleted successfully!", "success")]))).
Proof.
  unfold delete_expense, get_or_404.
  destruct (query_get i (expenses_table w)) as [e|] eqn:E.
  - right. exists e. split; [reflexivity|].
    apply find_some in E. destruct E as [_ Heq]. apply Z.eqb_eq in Heq.
    split; [exact Heq | reflexivity].
  - left. split; reflexivity.
Qed.

Lemma delete_expense_id_gone (i : Z) (w : world) :
  ~ In i (map id (expenses_table (snd (delete_expense i w)))).
Proof.
  destruct (delete_expense_cases i w) as [[Hnone ->]|(e & _ & Hid & ->)];
    cbn [snd expenses_table].
  - now apply query_get_none.
  - intros Hin. apply in_map_iff in Hin. destruct Hin as (r & Hr & Hin).
    apply session_delete_In in Hin. destruct Hin as [_ Hne]. congruence.
Qed.

(** C4, as the code has it: after [delete_expense i], the expenses page
    (the newest-first listing of [view_expenses]) and the plain listing hold
    no record with id [i]; and when no record has id [i], the handler leaves
    the table and the flashed messages as they were, answering 404 when [i]
    fits in 64 bits and ending in an uncaught [OverflowError] otherwise. *)
Theorem delete_expense_then_list (i : Z) (w : world) :
  (exists listed : list Expense,
     fst (view_expenses (snd (delete_expense i w))) =
     render_template (expenses_html listed) /\
     ~ In i (map id listed)) /\
  ~ In i (map id (query_all (expenses_table (snd (delete_expense i w))))) /\
  (~ In i (map id (expenses_table w)) ->
   (int64 i = true -> delete_expense i w = (abort 404, w)) /\
   (int64 i = false -> delete_expense i w = (raised OverflowError, w))).
Proof.
  pose proof (delete_expense_id_gone i w) as Hgone.
  split; [|split].
  - exists (order_by_date_desc (expenses_table (snd (delete_expense i w)))).
    split; [reflexivity|].
    intros Hin. apply Hgone.
    eapply Permutation_in; [|exact Hin].
    apply Permutation_map, order_by_date_desc_Permutation.
  - exact Hgone.
  - intros Hnot. apply query_get_none in Hnot.
    destruct (delete_expense_cases i w) as [[_ Hdel]|(e & Hsome & _)];
      [|congruence].
    rewrite Hdel. split; intros ->; reflexivity.
Qed.

(** C4 as stated fails: no record has the id 2^63, and deleting it ends in
    an uncaught [OverflowError] instead of the 404 answer. *)
Lemma delete_expense_beyond_int64 :
  delete_expense 9223372036854775808 (mk_world sample_expenses []) =
  (raised OverflowError, mk_world sample_expenses []) /\
  query_get 9223372036854775808 sample_expenses = None /\
  raised OverflowError <> abort 404.
Proof.
  split; [reflexivity|]. split; [reflexivity | discriminate].
Qed.

(** Deleting keeps every record with another id. *)
Lemma delete_expense_keeps_others (i : Z) (w : world) (r : Expense) :
  id r <> i ->
  (In r (expenses_table (snd (delete_expense i w))) <->
   In r (expenses_table w)).
Proof.
  intros Hne.
  destruct (delete_expense_cases i w) as [[_ ->]|(e & _ & Hid & ->)];
    cbn [snd expenses_table]; [reflexivity|].
  rewrite session_delete_In. intuition congruence.
Qed.

(** ** The summary page *)

Lemma finite_not_nan (x : float) : finite x = true -> is_nan x = false.
Proof.
  intros Hx. unfold is_nan.
  now rewrite (same_value_eqb x x Hx Hx eq_refl).
Qed.

Lemma is_zero_value (x : float) :
  finite x = true -> (is_zero x = true <-> value x = 0%Z).
Proof.
  intros Hx. split.
  - unfold is_zero. rewrite eqb_spec.
    change (Prim2SF zero) with (S754_zero false).
    revert Hx. unfold finite, value, units.
    destruct (Prim2SF x) as [sx|sx| |sx mx ex]; try discriminate; auto.
    destruct sx; discriminate.
  - intros Hv. unfold is_zero.
    apply same_value_eqb; [exact Hx | reflexivity | exact Hv].
Qed.

(** C10, as the code has it: the total on the summary page is the integer
    [0] (never an absent value) for an empty table; and for any table whose
    amounts add up without rounding it is their exact sum, the integer [0]
    standing for a sum that is zero.  The handler reads the table and
    changes nothing. *)
Theorem index_total_expenses (w : world) :
  snd (index w) = w /\
  exists total : pynum,
    total_expenses_of (fst (index w)) = Some total /\
    (expenses_table w = [] -> total = PyInt 0) /\
    (exact_sum 0%float (map amount (expenses_table w)) = true ->
     total = PyInt 0 /\
     Zsum (map value (map amount (expenses_table w))) = 0%Z \/
     exists s : float,
       total = PyFloat s /\ finite s = true /\
       value s = Zsum (map value (map amount (expenses_table w))) /\
       value s <> 0%Z).
Proof.
  split; [reflexivity|].
  exists (or_0 (query_sum_amount (expenses_table w))).
  split; [reflexivity|].
  destruct (expenses_table w) as [|e r] eqn:E.
  - split; [reflexivity|]. intros _. left. split; reflexivity.
  - split; [discriminate|]. intros Hex.
    destruct (sum_floats_exact _ Hex) as [Hfin Hval].
    unfold query_sum_amount. cbv zeta.
    rewrite (finite_not_nan _ Hfin). unfold or_0.
    destruct (is_zero (sum_floats (map amount (e :: r)))) eqn:Hz.
    + left. split; [reflexivity|].
      apply (is_zero_value _ Hfin) in Hz. congruence.
    + right. exists (sum_floats (map amount (e :: r))).
      repeat split; try assumption.
      intros Hv. apply (is_zero_value _ Hfin) in Hv. congruence.
Qed.

Lemma index_total_expenses_sample :
  exact_sum 0%float (map amount sample_expenses) = true /\
  exists s : float,
    total_expenses_of (fst (index (mk_world sample_expenses []))) =
    Some (PyFloat s) /\
    value s = Zsum (map value (map amount sample_expenses)).
Proof.
  split; [vm_compute; reflexivity|].
  destruct (index_total_expenses (mk_world sample_expenses []))
    as (_ & total & Htotal & _ & Hsum).
  destruct (Hsum eq_refl) as [[_ Hzero]|(s & Hs & _ & Hv & _)].
  - vm_compute in Hzero. discriminate.
  - exists s. split; [now rewrite Htotal, Hs | exact Hv].
Defined.

(** C10 as stated fails: after adding an expense of amount [inf] and one of
    amount [-inf], the amounts add up to NaN, the SQL aggregate is [NULL]
    and the page shows the integer [0] for a table of two records. *)
Lemma index_total_infinite_amounts :
  map amount (expenses_table after_infinite_adds) =
  [infinity; neg_infinity] /\
  total_expenses_of (fst (index after_infinite_adds)) = Some (PyInt 0) /\
  is_nan (sum_floats (map amount (expenses_table after_infinite_adds))) = true.
Proof.
  repeat split; vm_compute; reflexivity.
Qed.

(** ** Adding *)




(** What a [POST] does, by the outcome of the parsing. *)
Lemma add_expense_post
  (float_of_str : string -> option float)
  (strptime : string -> string -> option datetime)
  (req : request) (w : world) :
  method req = POST ->
  add_expense float_of_str strptime req w =
  match parse_expense float_of_str strptime req with
  | inl e => (raised e, w)
  | inr mk =>
      if is_nan (amount (mk (next_id (expenses_table w))))
      then (raised IntegrityError, w)
      else
        (redirect "index",
         mk_world (expenses_table w ++ [mk (next_id (expenses_table w))])
           (flashes w ++ [("Expense added successfully!", "success")]))
  end.
Proof.
  intros Hpost. unfold add_expense. rewrite Hpost.
  destruct (parse_expense float_of_str strptime req) as [e|mk];
    [reflexivity|].
  cbn [bind]. unfold session_add. cbv zeta.
  destruct (is_nan (amount (mk (next_id (expenses_table w)))));
    reflexivity.
Qed.

(** * Further properties of the handlers *)

(** ** Fresh ids *)

Lemma fold_left_Zmax_bounds (l : list Z) : forall a : Z,
  (a <= fold_left Z.max l a)%Z /\
  forall x, In x l -> (x <= fold_left Z.max l a)%Z.
Proof.
  induction l as [|y r IH]; intros a; simpl.
  - split; [lia | tauto].
  - destruct (IH (Z.max a y)) as [Ha Hr]. split; [lia|].
    intros x [<-|Hx]; [lia | auto].
Qed.

Lemma next_id_above (t : table) (e : Expense) :
  In e t -> (id e < next_id t)%Z.
Proof.
  intros He. unfold next_id.
  destruct (fold_left_Zmax_bounds (map id t) 0) as [_ H].
  specialize (H (id e) (in_map id t e He)). lia.
Qed.

Lemma next_id_fresh (t : table) : ~ In (next_id t) (map id t).
Proof.
  intros Hin. apply in_map_iff in Hin. destruct Hin as (e & He & Hin).
  pose proof (next_id_above t e Hin). lia.
Qed.

Lemma query_get_app_new (i : Z) (t : table) (e : Expense) :
  ~ In i (map id t) -> id e = i -> query_get i (t ++ [e]) = Some e.
Proof.
  intros Hnot He. unfold query_get.
  induction t as [|r t IH]; simpl.
  - rewrite He, Z.eqb_refl. reflexivity.
  - simpl in Hnot. destruct (id r =? i)%Z eqn:E.
    + apply Z.eqb_eq in E. tauto.
    + apply IH. tauto.
Qed.

Lemma session_delete_app_new (t : table) (e : Expense) :
  ~ In (id e) (map id t) -> session_delete e (t ++ [e]) = t.
Proof.
  intros Hnot. unfold session_delete. rewrite filter_app. simpl.
  rewrite Z.eqb_refl. simpl. rewrite app_nil_r.
  induction t as [|r t IH]; simpl; auto.
  simpl in Hnot. destruct (id r =? id e)%Z eqn:E.
  - apply Z.eqb_eq in E. tauto.
  - simpl. f_equal. apply IH. tauto.
Qed.

(** ** Adding a record *)

Section AddFacts.
Variable float_of_str : string -> option float.
Variable strptime : string -> string -> option datetime.

Lemma parse_expense_ok (req : request) (a c d s : string) (x : float)
  (dt : datetime) :
  form_lookup (form req) "amount" = Some a ->
  form_lookup (form req) "category" = Some c ->
  form_lookup (form req) "date" = Some d ->
  form_lookup (form req) "description" = Some s ->
  float_of_str a = Some x ->
  strptime d "%Y-%m-%d" = Some dt ->
  parse_expense float_of_str strptime req =
  inr (fun i => mk_Expense i x c dt (Some s)).
Proof.
  intros Ha Hc Hd Hs Hx Hdt. unfold parse_expense, form_get.
  rewrite Ha, Hc, Hd, Hs. cbn [or_raise bind].
  rewrite Hx, Hdt. reflexivity.
Qed.

(** Parsing succeeds only when the four fields are there and both parsers
    accept. *)
Lemma parse_expense_inr (req : request) (mk : Z -> Expense) :
  parse_expense float_of_str strptime req = inr mk ->
  exists (a c d s : string) (x : float) (dt : datetime),
    form_lookup (form req) "amount" = Some a /\
    form_lookup (form req) "category" = Some c /\
    form_lookup (form req) "date" = Some d /\
    form_lookup (form req) "description" = Some s /\
    float_of_str a = Some x /\
    strptime d "%Y-%m-%d" = Some dt /\
    mk = fun i => mk_Expense i x c dt (Some s).
Proof.
  unfold parse_expense, form_get.
  destruct (form_lookup (form req) "amount") as [a|] eqn:Ea; [|discriminate].
  cbn [or_raise bind].
  destruct (float_of_str a) as [x|] eqn:Ex; [|discriminate].
  cbn [or_raise bind].
  destruct (form_lookup (form req) "category") as [c|] eqn:Ec;
    [|discriminate].
  cbn [or_raise bind].
  destruct (form_lookup (form req) "date") as [d|] eqn:Ed; [|discriminate].
  cbn [or_raise bind].
  destruct (strptime d "%Y-%m-%d") as [dt|] eqn:Edt; [|discriminate].
  cbn [or_raise bind].
  destruct (form_lookup (form req) "description") as [s|] eqn:Es;
    [|discriminate].
  cbn [or_raise bind].
  intros E. inversion E. exists a, c, d, s, x, dt.
  repeat split; assumption.
Qed.


(** X2: whatever the request, [add_expense] either leaves the table and
    the flashed messages as they were (and does not redirect to the
    summary), or redirects to the summary after appending exactly one record
    with a fresh id and flashing the success message.  It never removes or
    rewrites a stored record. *)
Theorem add_expense_only_appends (req : request) (w : world) :
  (snd (add_expense float_of_str strptime req w) = w /\
   fst (add_expense float_of_str strptime req w) <> redirect "index") \/
  (exists e : Expense,
     ~ In (id e) (map id (expenses_table w)) /\
     add_expense float_of_str strptime req w =
     (redirect "index",
      mk_world (expenses_table w ++ [e])
        (flashes w ++ [("Expense added successfully!", "success")]))).
Proof.
  destruct (method req) eqn:Hm.
  - left. unfold add_expense. rewrite Hm.
    split; [reflexivity | discriminate].
  - rewrite (add_expense_post _ _ _ _ Hm).
    destruct (parse_expense float_of_str strptime req) as [e|mk] eqn:E.
    + left. split; [reflexivity | discriminate].
    + apply parse_expense_inr in E.
      destruct E as (a & c & d & s & x & dt & _ & _ & _ & _ & _ & _ & ->).
      cbn [amount]. destruct (is_nan x).
      * left. split; [reflexivity | discriminate].
      * right.
        exists (mk_Expense (next_id (expenses_table w)) x c dt (Some s)).
        split; [apply next_id_fresh | reflexivity].
Qed.

(** X3: a [POST] that lacks one of the four fields, while the amount and
    the date it does carry are accepted by the parsers, raises the
    framework's bad-request key error and changes nothing.  This holds for
    the description too: the field must be present, even if empty. *)
Theorem add_expense_missing_field (req : request) (w : world) (name : string) :
  method req = POST ->
  In name add_fields ->
  form_lookup (form req) name = None ->
  (forall a, form_lookup (form req) "amount" = Some a ->
             float_of_str a <> None) ->
  (forall d, form_lookup (form req) "date" = Some d ->
             strptime d "%Y-%m-%d" <> None) ->
  add_expense float_of_str strptime req w = (raised BadRequestKeyError, w).
Proof.
  intros Hpost Hname Hnone Hamount Hdate.
  rewrite (add_expense_post _ _ _ _ Hpost).
  replace (parse_expense float_of_str strptime req)
    with (@inl exn (Z -> Expense) BadRequestKeyError); [reflexivity|].
  symmetry. unfold parse_expense, form_get.
  destruct (form_lookup (form req) "amount") as [a|] eqn:Ea;
    cbn [or_raise bind]; [|reflexivity].
  destruct (float_of_str a) as [x|] eqn:Ex;
    [|exfalso; exact (Hamount a eq_refl Ex)].
  cbn [or_raise bind].
  destruct (form_lookup (form req) "category") as [c|] eqn:Ec;
    cbn [or_raise bind]; [|reflexivity].
  destruct (form_lookup (form req) "date") as [d|] eqn:Ed;
    cbn [or_raise bind]; [|reflexivity].
  destruct (strptime d "%Y-%m-%d") as [dt|] eqn:Edt;
    [|exfalso; exact (Hdate d eq_refl Edt)].
  cbn [or_raise bind].
  destruct (form_lookup (form req) "description") as [s|] eqn:Es;
    cbn [or_raise bind]; [|reflexivity].
  exfalso. unfold add_fields in Hname. simpl in Hname.
  destruct Hname as [<-|[<-|[<-|[<-|[]]]]]; congruence.
Qed.

(** X11: after an add that stored a record (all four fields, a date
    [strptime] accepts, an amount [float] accepts that is not NaN, the next
    row id below the 64-bit limit), deleting the id the record was given
    redirects to the expenses page and leaves the table exactly as it was
    before the add. *)
Theorem add_then_delete_restores (req : request) (w : world)
  (a c d s : string) (x : float) (dt : datetime) :
  method req = POST ->
  form_lookup (form req) "amount" = Some a ->
  form_lookup (form req) "category" = Some c ->
  form_lookup (form req) "date" = Some d ->
  form_lookup (form req) "description" = Some s ->
  float_of_str a = Some x ->
  is_nan x = false ->
  strptime d "%Y-%m-%d" = Some dt ->
  int64 (next_id (expenses_table w)) = true ->
  fst (delete_expense (next_id (expenses_table w))
         (snd (add_expense float_of_str strptime req w))) =
  redirect "view_expenses" /\
  expenses_table
    (snd (delete_expense (next_id (expenses_table w))
            (snd (add_expense float_of_str strptime req w)))) =
  expenses_table w.
Proof.
  intros Hpost Ha Hc Hd Hs Hx Hnan Hdt _.
  assert (Hadd : snd (add_expense float_of_str strptime req w) =
    mk_world
      (expenses_table w ++
         [mk_Expense (next_id (expenses_table w)) x c dt (Some s)])
      (flashes w ++ [("Expense added successfully!", "success")])).
  { rewrite (add_expense_post _ _ _ _ Hpost).
    rewrite (parse_expense_ok req a c d s x dt Ha Hc Hd Hs Hx Hdt).
    cbn [amount]. now rewrite Hnan. }
  rewrite Hadd. unfold delete_expense, get_or_404. cbn [expenses_table].
  rewrite (query_get_app_new (next_id (expenses_table w)) (expenses_table w)
             (mk_Expense (next_id (expenses_table w)) x c dt (Some s))
             (next_id_fresh _) eq_refl).
  cbn [fst snd flash with_table expenses_table].
  split; [reflexivity|].
  apply (session_delete_app_new (expenses_table w)
           (mk_Expense (next_id (expenses_table w)) x c dt (Some s))).
  apply next_id_fresh.
Qed.
End AddFacts.


Lemma add_expense_missing_field_sample :
  In "description" add_fields /\
  form_lookup (form request_without_description) "description" = None /\
  add_expense integer_float strict_strptime request_without_description
    (mk_world sample_expenses []) =
  (raised BadRequestKeyError, mk_world sample_expenses []).
Proof.
  split; [simpl; tauto|]. split; [reflexivity|].
  apply (add_expense_missing_field integer_float strict_strptime
           request_without_description (mk_world sample_expenses [])
           "description").
  - reflexivity.
  - simpl; tauto.
  - reflexivity.
  - intros a Ha. inversion Ha. discriminate.
  - intros d Hd. inversion Hd. discriminate.
Defined.

Lemma add_then_delete_restores_sample :
  expenses_table
    (snd (delete_expense 4
            (snd (add_expense integer_float strict_strptime
                    (add_request "12" "Food" "2024-03-01" "tea")
                    (mk_world sample_expenses []))))) =
  sample_expenses.
Proof.
  destruct (add_then_delete_restores integer_float strict_strptime
              (add_request "12" "Food" "2024-03-01" "tea")
              (mk_world sample_expenses [])
              "12" "Food" "2024-03-01" "tea" 12%float (sample_date 2024 3 1)
              eq_refl eq_refl eq_refl eq_refl eq_refl eq_refl eq_refl
              eq_refl eq_refl)
    as [_ Htable].
  exact Htable.
Defined.

(** ** The listings *)

Lemma lex_leb_total (a : list N) : forall b : list N,
  List.length a = List.length b ->
  lex_leb a b = true \/ lex_leb b a = true.
Proof.
  induction a as [|x a IH]; intros [|y b] Hlen; simpl; try discriminate; auto.
  destruct (x <? y)%N eqn:Exy; [now left|].
  destruct (y <? x)%N eqn:Eyx; [now right|].
  apply IH. simpl in Hlen. congruence.
Qed.

Lemma datetime_leb_total (a b : datetime) :
  datetime_leb a b = true \/ datetime_leb b a = true.
Proof.
  apply lex_leb_total. reflexivity.
Qed.

Lemma order_by_date_desc_Sorted (t : table) :
  Sorted (fun a b => datetime_leb (date b) (date a) = true)
    (order_by_date_desc t).
Proof.
  apply sort_by_Sorted. intros a b. apply datetime_leb_total.
Qed.

Lemma Sorted_newest_first (l : list Expense) :
  Sorted (fun a b => datetime_leb (date b) (date a) = true) l ->
  newest_first (map date l) = true.
Proof.
  induction 1 as [|x r Hr IH Hhd]; [reflexivity|].
  destruct Hhd as [|y r' Hxy]; [reflexivity|].
  change (datetime_leb (date y) (date x) &&
          newest_first (map date (y :: r')) = true).
  now rewrite Hxy, IH.
Qed.

Lemma newest_first_firstn (n : nat) : forall l : list datetime,
  newest_first l = true -> newest_first (firstn n l) = true.
Proof.
  induction n as [|n IH]; intros l Hl; [reflexivity|].
  destruct l as [|d r]; [reflexivity|].
  destruct r as [|d' r'].
  - destruct n; reflexivity.
  - change (datetime_leb d' d && newest_first (d' :: r') = true) in Hl.
    apply andb_true_iff in Hl. destruct Hl as [Hd Hr].
    specialize (IH (d' :: r') Hr).
    destruct n as [|n]; [reflexivity|].
    change (firstn (S (S n)) (d :: d' :: r'))
      with (d :: firstn (S n) (d' :: r')).
    change (firstn (S n) (d' :: r')) with (d' :: firstn n r') in *.
    change (datetime_leb d' d && newest_first (d' :: firstn n r') = true).
    now rewrite Hd, IH.
Qed.

Lemma In_firstn {A : Type} (n : nat) : forall (l : list A) (x : A),
  In x (firstn n l) -> In x l.
Proof.
  induction n as [|n IH]; intros [|y r] x; simpl; try tauto.
  intros [->|H]; auto.
Qed.

(** X4: the expenses page lists every stored record exactly once (the
    listing is a permutation of the table), newest date first, and the
    handler changes nothing. *)
Theorem view_expenses_newest_first (w : world) :
  exists listed : list Expense,
    view_expenses w = (render_template (expenses_html listed), w) /\
    Permutation listed (expenses_table w) /\
    newest_first (map date listed) = true.
Proof.
  exists (order_by_date_desc (expenses_table w)).
  split; [reflexivity|]. split.
  - apply order_by_date_desc_Permutation.
  - apply Sorted_newest_first, order_by_date_desc_Sorted.
Qed.

(** X5: the summary page shows the number of stored records and, as the
    recent expenses, the first five entries of the expenses page: at most
    five stored records, newest first; the handler changes nothing. *)
Theorem index_recent_expenses (w : world) :
  exists (total : pynum) (recent listed : list Expense),
    index w =
    (render_template
       (index_html total (List.length (expenses_table w)) recent), w) /\
    fst (view_expenses w) = render_template (expenses_html listed) /\
    recent = firstn 5 listed /\
    List.length recent = Nat.min 5 (List.length (expenses_table w)) /\
    newest_first (map date recent) = true /\
    forall e, In e recent -> In e (expenses_table w).
Proof.
  exists (or_0 (query_sum_amount (expenses_table w))),
    (firstn 5 (order_by_date_desc (expenses_table w))),
    (order_by_date_desc (expenses_table w)).
  split; [reflexivity|]. split; [reflexivity|]. split; [reflexivity|].
  split; [|split].
  - rewrite length_firstn.
    now rewrite (Permutation_length (order_by_date_desc_Permutation _)).
  - rewrite <- firstn_map. apply newest_first_firstn.
    apply Sorted_newest_first, order_by_date_desc_Sorted.
  - intros e He. apply In_firstn in He.
    eapply Permutation_in; [apply order_by_date_desc_Permutation | exact He].
Qed.

(** ** The dashboard *)

Lemma comprehension_Forall2 {A B : Type} (f : A -> option B) (xs : list A) :
  forall ys : list B,
  comprehension f xs = Some ys -> Forall2 (fun x y => f x = Some y) xs ys.
Proof.
  induction xs as [|x r IH]; intros ys; simpl.
  - intros E. inversion E. constructor.
  - destruct (f x) as [y|] eqn:Ex; [|discriminate].
    destruct (comprehension f r) as [ys'|]; [|discriminate].
    intros E. inversion E. subst ys. constructor; auto.
Qed.

Lemma categories_nonempty (e : Expense) (r : list Expense) :
  categories (e :: r) <> [].
Proof.
  intros H. apply (f_equal keys) in H.
  rewrite categories_aggregate, keys_aggregate in H. discriminate.
Qed.

Lemma sorted_months_Permutation (expenses : list Expense) :
  Permutation (sorted_months (monthly_data expenses))
    (keys (monthly_data expenses)).
Proof.
  apply (sort_by_Permutation String.leb).
Qed.

Lemma sorted_months_Sorted (expenses : list Expense) :
  Sorted (fun a b => (a <=? b)%string = true) (sorted_months (monthly_data expenses)).
Proof.
  apply (sort_by_Sorted String.leb String.leb_total).
Qed.

Lemma sorted_months_nonempty (e : Expense) (r : list Expense) :
  sorted_months (monthly_data (e :: r)) <> [].
Proof.
  intros H. pose proof (sorted_months_Permutation (e :: r)) as Hperm.
  rewrite H in Hperm. apply Permutation_nil in Hperm.
  rewrite monthly_data_aggregate, keys_aggregate in Hperm. discriminate.
Qed.

(** X6: the dashboard changes nothing and never fails in its own code: the
    list comprehension finds a value for every sorted month, position by
    position the total stored under that month.  For an empty table it
    renders the page with both charts absent and draws nothing.  Otherwise
    it draws the pie chart from the category totals and then the line chart
    from the sorted months and those values, and renders the page with
    both; if matplotlib raises on either drawing, that exception ends the
    request. *)
Theorem dashboard_charts
  (pie_png : dict float -> result string)
  (line_png : list string -> list float -> result string) (w : world) :
  exists vs : list float,
    Forall2 (fun m v => dict_get (monthly_data (expenses_table w)) m = Some v)
      (sorted_months (monthly_data (expenses_table w))) vs /\
    dashboard pie_png line_png w =
    match expenses_table w with
    | [] => (render_template (dashboard_html None None []), w)
    | _ :: _ =>
        match pie_png (categories (expenses_table w)) with
        | inl e => (raised e, w)
        | inr category_chart =>
            match line_png (sorted_months (monthly_data (expenses_table w))) vs with
            | inl e => (raised e, w)
            | inr monthly_chart =>
                (render_template
                   (dashboard_html (Some category_chart) (Some monthly_chart)
                      (categories (expenses_table w))),
                 w)
            end
        end
    end.
Proof.
  destruct (monthly_values_defined (expenses_table w)) as (vs & Hvs & _).
  exists vs. split.
  - apply comprehension_Forall2. exact Hvs.
  - unfold dashboard, query_all. rewrite Hvs. cbn [or_raise bind].
    destruct (expenses_table w) as [|e r] eqn:Et; [reflexivity|].
    unfold generate_pie_chart, generate_line_chart.
    pose proof (categories_nonempty e r) as Hc.
    pose proof (sorted_months_nonempty e r) as Hm.
    destruct (categories (e :: r)) as [|c cs] eqn:Ec; [congruence|].
    destruct (pie_png (c :: cs)) as [err|chart]; cbn [bind]; [reflexivity|].
    destruct (sorted_months (monthly_data (e :: r))) as [|m ms] eqn:Em; [congruence|].
    destruct (line_png (m :: ms) vs) as [err|line]; reflexivity.
Qed.

(** X7: the per-month aggregate has one key per distinct month of the
    input, in the order in which the months first occur, and maps every
    month key to the sum (taken left to right, in input order) of the amounts
    of the records dated in that month; a month without records has no
    entry. *)
Theorem monthly_data_first_occurrence_sums (expenses : list Expense) :
  keys (monthly_data expenses) =
  first_occurrences (map (fun e => strftime (date e) "%Y-%m") expenses) /\
  NoDup (keys (monthly_data expenses)) /\
  forall k : string,
    dict_get (monthly_data expenses) k =
    sum_left PrimFloat.add
      (map amount
         (filter (fun e => strftime (date e) "%Y-%m" =? k) expenses)).
Proof.
  rewrite monthly_data_aggregate, keys_aggregate. split; [|split].
  - rewrite map_map. reflexivity.
  - apply first_occurrences_NoDup.
  - intros k. rewrite dict_get_aggregate. f_equal. apply amounts_of_month.
Qed.

Lemma month_index_inj (a b : string) :
  is_month_key a = true -> is_month_key b = true ->
  month_index a = month_index b -> a = b.
Proof.
  intros Ha Hb E.
  apply String.leb_antisym; rewrite month_key_leb_index by assumption;
    apply N.leb_le; lia.
Qed.

Lemma StronglySorted_strict {A : Type} (R R' : A -> A -> Prop) (l : list A) :
  StronglySorted R l -> NoDup l ->
  (forall a b, In a l -> In b l -> R a b -> a <> b -> R' a b) ->
  StronglySorted R' l.
Proof.
  induction 1 as [|x r Hr IH Hall]; intros Hnd Himp; constructor.
  - apply IH.
    + now inversion Hnd.
    + intros a b Ha Hb. apply Himp; now right.
  - rewrite Forall_forall in *. intros y Hy.
    apply Himp; simpl; auto.
    inversion Hnd; subst. intros ->. contradiction.
Qed.

(** X8: when every stored date is a valid date with a four-digit year, the
    months handed to the trend chart are strictly increasing in time (no
    month twice, none out of order), and the month of every record is among
    them. *)
Theorem sorted_months_strictly_increasing (expenses : list Expense) :
  (forall e, In e expenses -> four_digit_year (date e) = true) ->
  StronglySorted (fun a b => (month_index a < month_index b)%N)
    (sorted_months (monthly_data expenses)) /\
  forall e, In e expenses ->
    In (strftime (date e) "%Y-%m") (sorted_months (monthly_data expenses)) /\
    month_index (strftime (date e) "%Y-%m") =
    (12 * year (date e) + month (date e))%N.
Proof.
  intros Hok.
  pose proof (monthly_data_keys_valid expenses Hok) as Hvalid.
  rewrite forallb_forall in Hvalid.
  pose proof (sorted_months_Permutation expenses) as Hperm.
  pose proof (sorted_months_Sorted expenses) as Hsorted.
  assert (Hkey : forall k, In k (sorted_months (monthly_data expenses)) ->
                           is_month_key k = true).
  { intros k Hk. apply Hvalid. eapply Permutation_in; eassumption. }
  split.
  - apply (StronglySorted_strict
             (fun a b => (month_index a <= month_index b)%N)).
    + apply Sorted_StronglySorted.
      * intros a b c Hab Hbc. now transitivity (month_index b).
      * apply (Sorted_weaken (fun a b => (a <=? b)%string = true));
          [|exact Hsorted].
        intros a b Ha Hb Hab.
        rewrite (month_key_leb_index a b (Hkey a Ha) (Hkey b Hb)) in Hab.
        now apply N.leb_le.
    + apply (Permutation_NoDup (Permutation_sym Hperm)).
      rewrite monthly_data_aggregate, keys_aggregate.
      apply first_occurrences_NoDup.
    + intros a b Ha Hb Hle Hne.
      assert (month_index a <> month_index b).
      { intros E. apply Hne.
        exact (month_index_inj a b (Hkey a Ha) (Hkey b Hb) E). }
      lia.
  - intros e He. split.
    + apply (Permutation_in _ (Permutation_sym Hperm)).
      rewrite monthly_data_aggregate, keys_aggregate, first_occurrences_In.
      rewrite map_map. apply in_map_iff. exists e. split; [reflexivity|exact He].
    + unfold month_index. now rewrite (strftime_month_key _ (Hok e He)).
Qed.

Lemma sorted_months_strictly_increasing_sample :
  (forall e, In e march_first -> four_digit_year (date e) = true) /\
  StronglySorted (fun a b => (month_index a < month_index b)%N)
    (sorted_months (monthly_data march_first)).
Proof.
  assert (Hok : forall e, In e march_first ->
                          four_digit_year (date e) = true).
  { intros e He. simpl in He.
    destruct He as [<-|[<-|[<-|[<-|[]]]]]; vm_compute; reflexivity. }
  split; [exact Hok|].
  exact (proj1 (sorted_months_strictly_increasing march_first Hok)).
Defined.

(** Below the year 1000 the month keys are shorter and sort after the
    others: a record of December 999 comes last in the trend chart. *)
Lemma sorted_months_short_year :
  sorted_months
    (monthly_data
       [mk_Expense 1 100 "Food" (sample_date 2024 1 15) None;
        short_year_expense]) =
  ["2024-01"; "999-12"].
Proof. vm_compute. reflexivity. Qed.

(** ** More on deleting *)

(** X9: deleting the same id a second time changes nothing, whatever the
    first delete did: the id is then absent, so the answer is 404 for an id
    that fits a 64-bit integer and an uncaught overflow error beyond. *)
Theorem delete_expense_twice (i : Z) (w : world) :
  delete_expense i (snd (delete_expense i w)) =
  (if int64 i then abort 404 else raised OverflowError,
   snd (delete_expense i w)).
Proof.
  pose proof (delete_expense_id_gone i w) as Hgone.
  apply query_get_none in Hgone.
  destruct (delete_expense_cases i (snd (delete_expense i w)))
    as [[_ Hdel]|(e & Hsome & _)].
  - exact Hdel.
  - rewrite Hgone in Hsome. discriminate.
Qed.

Lemma filter_other_ids (i : Z) (t : table) :
  ~ In i (map id t) -> filter (fun r => negb (id r =? i)%Z) t = t.
Proof.
  induction t as [|r t IH]; simpl; auto.
  intros Hnot. destruct (id r =? i)%Z eqn:E.
  - apply Z.eqb_eq in E. tauto.
  - simpl. f_equal. apply IH. tauto.
Qed.

Lemma length_filter_unique_id (i : Z) (t : table) :
  NoDup (map id t) -> In i (map id t) ->
  S (List.length (filter (fun r => negb (id r =? i)%Z) t)) = List.length t.
Proof.
  induction t as [|r t IH]; simpl; [tauto|].
  intros Hnd Hin. inversion Hnd as [|? ? Hnotin Hnd']; subst.
  destruct (id r =? i)%Z eqn:E; simpl.
  - apply Z.eqb_eq in E. subst i. now rewrite filter_other_ids.
  - apply Z.eqb_neq in E. f_equal. apply IH; [assumption|].
    destruct Hin; [contradiction | assumption].
Qed.

(** Deleting keeps distinct ids distinct. *)
Lemma session_delete_NoDup (e : Expense) (t : table) :
  NoDup (map id t) -> NoDup (map id (session_delete e t)).
Proof.
  unfold session_delete. intros Hnd.
  induction t as [|r t IH]; simpl; [constructor|].
  simpl in Hnd. apply NoDup_cons_iff in Hnd. destruct Hnd as [Hfresh Hnd].
  destruct (id r =? id e)%Z; simpl; [now apply IH|].
  constructor; [|now apply IH].
  intros Hin. apply Hfresh. apply in_map_iff in Hin.
  destruct Hin as (y & Hy & Hin). apply filter_In in Hin.
  apply in_map_iff. exists y. tauto.
Qed.

(** X10: when the stored ids are distinct and [i] is one of them,
    [delete_expense i] redirects to the expenses page, flashes the success
    message and removes exactly one record: the count drops by one and the
    table keeps the records with another id, in their order. *)
Theorem delete_expense_removes_one (i : Z) (w : world) :
  NoDup (map id (expenses_table w)) ->
  In i (map id (expenses_table w)) ->
  delete_expense i w =
  (redirect "view_expenses",
   mk_world (filter (fun r => negb (id r =? i)%Z) (expenses_table w))
     (flashes w ++ [("Expense deleted successfully!", "success")])) /\
  S (List.length (expenses_table (snd (delete_expense i w)))) =
  List.length (expenses_table w).
Proof.
  intros Hnd Hin.
  assert (Hdel : delete_expense i w =
    (redirect "view_expenses",
     mk_world (filter (fun r => negb (id r =? i)%Z) (expenses_table w))
       (flashes w ++ [("Expense deleted successfully!", "success")]))).
  { destruct (delete_expense_cases i w) as [[Hnone _]|(e & _ & Hid & ->)].
    - apply query_get_none in Hnone. contradiction.
    - unfold session_delete. now rewrite Hid. }
  split; [exact Hdel|].
  rewrite Hdel. cbn [snd expenses_table].
  now apply length_filter_unique_id.
Qed.

Lemma delete_expense_removes_one_sample :
  delete_expense 2 (mk_world sample_expenses []) =
  (redirect "view_expenses",
   mk_world
     [ mk_Expense 1 100 "Food" (sample_date 2024 1 15) (Some "groceries");
       mk_Expense 3 30 "Transport" (sample_date 2024 1 20) (Some "bus") ]
     [("Expense deleted successfully!", "success")]).
Proof.
  assert (Hnd : NoDup (map id (expenses_table (mk_world sample_expenses [])))).
  { simpl. repeat constructor; simpl; intuition discriminate. }
  assert (Hin : In 2%Z (map id (expenses_table (mk_world sample_expenses [])))).
  { simpl. tauto. }
  exact (proj1 (delete_expense_removes_one 2 (mk_world sample_expenses [])
                  Hnd Hin)).
Defined.

(** X12: the two handlers that change the table keep the stored ids
    distinct: if no two records share an id before [add_expense] or
    [delete_expense], none do afterwards. *)
Theorem ids_stay_distinct
  (float_of_str : string -> option float)
  (strptime : string -> string -> option datetime)
  (req : request) (i : Z) (w : world) :
  NoDup (map id (expenses_table w)) ->
  NoDup (map id (expenses_table
                   (snd (add_expense float_of_str strptime req w)))) /\
  NoDup (map id (expenses_table (snd (delete_expense i w)))).
Proof.
  intros Hnd. split.
  - destruct (method req) eqn:Hm.
    + unfold add_expense. rewrite Hm. exact Hnd.
    + rewrite (add_expense_post float_of_str strptime req w Hm).
      destruct (parse_expense float_of_str strptime req) as [e|mk] eqn:E;
        [exact Hnd|].
      apply parse_expense_inr in E.
      destruct E as (a & c & d & s & x & dt & _ & _ & _ & _ & _ & _ & ->).
      cbn [amount].
      destruct (is_nan x); [exact Hnd|].
      cbn [snd expenses_table]. rewrite map_app. cbn [map id].
      apply (Permutation_NoDup (l := next_id (expenses_table w)
                                       :: map id (expenses_table w))).
      * apply Permutation_cons_append.
      * constructor; [apply next_id_fresh | exact Hnd].
  - destruct (delete_expense_cases i w) as [[_ ->]|(e & _ & _ & ->)];
      cbn [snd expenses_table]; [exact Hnd|].
    now apply session_delete_NoDup.
Qed.

Lemma ids_stay_distinct_sample :
  NoDup (map id sample_expenses) /\
  NoDup (map id (expenses_table
                   (snd (add_expense integer_float strict_strptime
                           (add_request "12" "Food" "2024-03-01" "tea")
                           (mk_world sample_expenses []))))) /\
  NoDup (map id (expenses_table
                   (snd (delete_expense 2 (mk_world sample_expenses []))))).
Proof.
  assert (Hnd : NoDup (map id (expenses_table (mk_world sample_expenses [])))).
  { simpl. repeat constructor; simpl; intuition discriminate. }
  split; [exact Hnd|].
  exact (ids_stay_distinct integer_float strict_strptime
           (add_request "12" "Food" "2024-03-01" "tea") 2
           (mk_world sample_expenses []) Hnd).
Defined.

(** ** More on the export *)

(** X13: every export starts with the header line and changes nothing, and
    the export of a table with one more record at its end is the export of
    the shorter table followed by the line of that record. *)
Theorem export_csv_appends_line (float_str : float -> string)
  (t : table) (e : Expense) (messages : list (string * string)) :
  exists out data : string,
    out = ("Date,Category,Description,Amount (₹)" ++ CRLF ++ data)%string /\
    export_csv float_str (mk_world t messages) =
    (send_file out "expenses.csv" "text/csv", mk_world t messages) /\
    export_csv float_str (mk_world (t ++ [e]) messages) =
    (send_file (out ++ writerow float_str "" (export_row e))
       "expenses.csv" "text/csv",
     mk_world (t ++ [e]) messages).
Proof.
  exists (fold_left (writerow float_str) (export_rows t) ""),
    (fold_left (writerow float_str) (map export_row t) "").
  split; [|split].
  - unfold export_rows, query_all. simpl.
    rewrite fold_left_writerow. reflexivity.
  - reflexivity.
  - unfold export_csv. cbn [expenses_table].
    unfold export_rows, query_all. rewrite map_app. simpl.
    rewrite fold_left_app. simpl.
    unfold writerow at 1. reflexivity.
Qed.

(** ** The views agree *)


(** X15: one more record at the end of the table is one more step of the
    grouping: its category's total grows by its amount (or starts at its
    amount, for a category not seen before, which then comes last), every
    other category keeps its total, and the same holds for its month. *)
Theorem dashboard_after_append (t : table) (e : Expense) :
  categories (t ++ [e]) =
  accumulate PrimFloat.add (categories t) (category e) (amount e) /\
  monthly_data (t ++ [e]) =
  accumulate PrimFloat.add (monthly_data t) (strftime (date e) "%Y-%m")
    (amount e) /\
  dict_get (categories (t ++ [e])) (category e) =
  Some match dict_get (categories t) (category e) with
       | Some v => (v + amount e)%float
       | None => amount e
       end /\
  (forall c, c <> category e ->
             dict_get (categories (t ++ [e])) c = dict_get (categories t) c) /\
  keys (categories (t ++ [e])) =
  if mem (category e) (keys (categories t))
  then keys (categories t)
  else keys (categories t) ++ [category e].
Proof.
  assert (Hc : categories (t ++ [e]) =
               accumulate PrimFloat.add (categories t) (category e) (amount e)).
  { unfold categories, dashboard_loop. rewrite fold_left_app. simpl.
    destruct (fold_left dashboard_step t ([], [])) as [c m]. reflexivity. }
  assert (Hm : monthly_data (t ++ [e]) =
               accumulate PrimFloat.add (monthly_data t)
                 (strftime (date e) "%Y-%m") (amount e)).
  { unfold monthly_data, dashboard_loop. rewrite fold_left_app.
    cbn [fold_left].
    destruct (fold_left dashboard_step t ([], [])) as [c m]. reflexivity. }
  split; [exact Hc|]. split; [exact Hm|]. rewrite Hc. split; [|split].
  - apply dict_get_accumulate_same.
  - intros c Hne. apply dict_get_accumulate_other. congruence.
  - apply keys_accumulate.
Qed.
